(** * Premium prediction helper: feature encoding, risk score and age dispatch

    A shallow embedding of [prediction_helper.py].

    Conventions of the embedding:
    - Python [str] values are [string]s of 8-bit characters; [str.lower]
      maps the letters A..Z to a..z and leaves every other character alone.
    - Python [int] is [Z].  Python [float] is modelled by the exact
      rational it denotes ([Qc], rationals in lowest terms), so [/] is
      exact division.
    - A [dict] that is iterated ([input_dict]) is an association list in
      insertion order; a dict that is only looked up ([risk_scores],
      [insurance_plan_encoding]) is a [gmap].
    - A one-row [DataFrame] is the ordered list of its (column, cell) pairs.
    - Exceptions are the [Raise] results of a small error monad. *)

From Stdlib Require Import ZArith QArith Qcanon Qround String Ascii List Lia.
From stdpp Require Import base list strings gmap fin_maps.

Local Open Scope string_scope.
Local Open Scope Z_scope.

(** ** Exceptions *)

Inductive exn : Type :=
| KeyError (k : string)
| TypeError
| AttributeError
| ValueError
| IndexError.

Inductive result (A : Type) : Type :=
| Ok (a : A)
| Raise (e : exn).

Arguments Ok {A} a.
Arguments Raise {A} e.

Definition bind {A B : Type} (r : result A) (k : A -> result B) : result B :=
  match r with
  | Ok a => k a
  | Raise e => Raise e
  end.

Notation "'do' x <- r ; k" := (bind r (fun x => k))
  (at level 10, x name, r at level 100, k at level 200).

(** ** Python values found in the raw input and in data frame cells *)

Inductive value : Type :=
| VStr (s : string)
| VInt (z : Z)
| VFloat (q : Qc).

(** ** Strings: [str.lower], [str.split(sep)], [sep.join] *)

Module PyStr.

Definition is_upper (c : ascii) : bool :=
  let n := N_of_ascii c in ((65 <=? n) && (n <=? 90))%N.

Definition lower_char (c : ascii) : ascii :=
  if is_upper c then ascii_of_N (N_of_ascii c + 32) else c.

Fixpoint lower (s : string) : string :=
  match s with
  | EmptyString => EmptyString
  | String c s' => String (lower_char c) (lower s')
  end.

(** [split_from sep skip s] scans [s] from the left.  [skip] counts the
    characters of a separator occurrence that are still to be passed
    over.  The head of the result is the part under construction. *)
Fixpoint split_from (sep : string) (skip : nat) (s : string) : list string :=
  match s with
  | EmptyString => [EmptyString]
  | String c s' =>
      match skip with
      | S k => split_from sep k s'
      | O =>
          if String.prefix sep s
          then EmptyString :: split_from sep (pred (String.length sep)) s'
          else match split_from sep 0 s' with
               | p :: ps => String c p :: ps
               | [] => [String c EmptyString]
               end
      end
  end.

(** [s.split(sep)] for a non-empty [sep]: leftmost, non-overlapping. *)
Definition split (sep s : string) : list string := split_from sep 0 s.

(** [sep.join(parts)] *)
Definition join (sep : string) (parts : list string) : string :=
  String.concat sep parts.

(** [a in s] for a character [a] *)
Fixpoint has_char (a : ascii) (s : string) : bool :=
  match s with
  | EmptyString => false
  | String c s' => Ascii.eqb c a || has_char a s'
  end.

End PyStr.

(** ** Risk score (lines 30-48) *)

Definition risk_scores : gmap string Z :=
  <["diabetes" := 6]> (<["heart disease" := 8]> (<["high blood pressure" := 6]>
  (<["thyroid" := 5]> (<["no disease" := 0]> (<["none" := 0]> ∅))))).

(** [d.get(k, dflt)] *)
Definition dict_get_default {V} (d : gmap string V) (k : string) (dflt : V) : V :=
  default dflt (d !! k).

(** [sum(...)] over integers *)
Definition sum (l : list Z) : Z := fold_left Z.add l 0.

Definition Z2Qc (z : Z) : Qc := Q2Qc (inject_Z z).

Definition total_risk_score (medical_history : string) : Z :=
  let diseases := PyStr.split " & " (PyStr.lower medical_history) in
  sum (map (fun disease => dict_get_default risk_scores disease 0) diseases).

Definition calculate_normalized_risk (medical_history : string) : Qc :=
  let total_risk_score := total_risk_score medical_history in
  let max_score := 14 in
  let min_score := 0 in
  (Z2Qc (total_risk_score - min_score) / Z2Qc (max_score - min_score))%Qc.

(** ** Association lists keyed by strings *)

(** The first entry stored under [k], if any. *)
Definition assoc {A : Type} (k : string) (l : list (string * A)) : option A :=
  snd <$> List.find (fun kv => String.eqb (fst kv) k) l.

(** ** Raw input: a [dict] iterated in insertion order *)

Definition raw_input : Type := list (string * value).

(** [d.get(k)] : the entry stored under [k], if any *)
Definition dict_lookup (d : raw_input) (k : string) : option value := assoc k d.

(** [d[k]] *)
Definition dict_item (d : raw_input) (k : string) : result value :=
  match dict_lookup d k with
  | Some v => Ok v
  | None => Raise (KeyError k)
  end.

(** A dict holds each key once. *)
Definition wf_dict (d : raw_input) : Prop := NoDup (map fst d).

(** [value == s] for a string literal [s] *)
Definition py_eq_str (v : value) (s : string) : bool :=
  match v with
  | VStr t => String.eqb t s
  | _ => false
  end.

(** [value in l] for a list [l] of string literals; when it holds, the
    result carries the string that [value] is, which is what an f-string
    over [value] then prints. *)
Definition py_in (v : value) (l : list string) : option string :=
  match v with
  | VStr t => if existsb (String.eqb t) l then Some t else None
  | _ => None
  end.

(** [age <= n] for an integer literal [n] *)
Definition py_le (v : value) (n : Z) : result bool :=
  match v with
  | VInt z => Ok (z <=? n)
  | VFloat q => Ok (Qle_bool q (inject_Z n))
  | VStr _ => Raise TypeError
  end.

(** [int(x)] of a float: truncation towards zero *)
Definition py_int (q : Qc) : Z := Z.quot (Qnum q) (Zpos (Qden q)).

(** ** One-row data frames *)

Definition dataframe : Type := list (string * value).

Module DF.

Definition columns (df : dataframe) : list string := map fst df.

(** [pd.DataFrame(fill, columns=cols, index=[0])] *)
Definition create (fill : value) (cols : list string) : dataframe :=
  map (fun c => (c, fill)) cols.

Definition has_col (c : string) (df : dataframe) : bool :=
  existsb (String.eqb c) (columns df).

(** the cell of column [c] *)
Definition get_col (c : string) (df : dataframe) : option value := assoc c df.

(** [df[c] = v]: overwrite in place, or append a new last column *)
Definition set_col (c : string) (v : value) (df : dataframe) : dataframe :=
  if has_col c df
  then map (fun cv => if String.eqb (fst cv) c then (fst cv, v) else cv) df
  else (df ++ [(c, v)])%list.

(** [df[cols]]: the listed columns, in the order listed *)
Fixpoint select (cols : list string) (df : dataframe) : result dataframe :=
  match cols with
  | [] => Ok []
  | c :: cols' =>
      match get_col c df with
      | None => Raise (KeyError c)
      | Some v => do rest <- select cols' df; Ok ((c, v) :: rest)
      end
  end.

(** the column assignments [df[c] = v] of a list of pairs, left to right *)
Definition assign_all (pairs : list (string * value)) (df : dataframe) : dataframe :=
  fold_left (fun d cv => set_col (fst cv) (snd cv) d) pairs df.

(** [df[cols] = row]: one cell per listed column, or a shape error *)
Definition assign (cols : list string) (row : list value) (df : dataframe)
  : result dataframe :=
  if Nat.eqb (length cols) (length row)
  then Ok (assign_all (combine cols row) df)
  else Raise ValueError.

(** a column name other than [c] *)
Definition not_named (c : string) (c' : string) : bool := negb (String.eqb c' c).

(** [df.drop(c, axis="columns", inplace=True)] *)
Definition drop (c : string) (df : dataframe) : result dataframe :=
  if has_col c df
  then Ok (List.filter (fun cv => not_named c (fst cv)) df)
  else Raise (KeyError c).

End DF.

(** ** Artifacts: scaler bundles and models (lines 16-24), opaque *)

Record scaler_bundle : Type := {
  cols_to_scale : list string;
  (** [scaler.transform]: one output cell per input column, or an exception *)
  transform : dataframe -> result (list value)
}.

Record model : Type := {
  (** [model.predict]: the array of predictions *)
  model_predict : dataframe -> result (list Qc)
}.

(** ** Feature encoder (lines 63-115) *)

Definition expected_columns : list string :=
  [ "age"; "number_of_dependants"; "income_lakhs"; "insurance_plan";
    "genetical_risk"; "normalized_risk_score"; "gender_Male";
    "region_Northwest"; "region_Southeast"; "region_Southwest";
    "marital_status_Unmarried"; "bmi_category_Obesity";
    "bmi_category_Overweight"; "bmi_category_Underweight";
    "smoking_status_Occasional"; "smoking_status_Regular";
    "employment_status_Salaried"; "employment_status_Self-Employed" ].

Definition insurance_plan_encoding : gmap string Z :=
  <["Bronze" := 1]> (<["Silver" := 2]> (<["Gold" := 3]> ∅)).

(** [insurance_plan_encoding.get(value, 1)] *)
Definition insurance_plan_code (v : value) : Z :=
  match v with
  | VStr s => dict_get_default insurance_plan_encoding s 1
  | _ => 1
  end.

(** [key == k and value in l] *)
Definition key_and_in (key k : string) (v : value) (l : list string) : option string :=
  if String.eqb key k then py_in v l else None.

(** The body of the loop of lines 90-113, for one item of the dict. *)
Definition encode_step (df : dataframe) (item : string * value) : dataframe :=
  let key := fst item in
  let value := snd item in
  if String.eqb key "Gender" && py_eq_str value "Male" then
    DF.set_col "gender_Male" (VInt 1) df
  else if String.eqb key "Region" then
    match py_in value ["Northwest"; "Southeast"; "Southwest"] with
    | Some v => DF.set_col ("region_" ++ v) (VInt 1) df
    | None => df
    end
  else if String.eqb key "Marital Status" && py_eq_str value "Unmarried" then
    DF.set_col "marital_status_Unmarried" (VInt 1) df
  else match key_and_in key "BMI Category" value ["Obesity"; "Overweight"; "Underweight"] with
  | Some v => DF.set_col ("bmi_category_" ++ v) (VInt 1) df
  | None =>
  match key_and_in key "Smoking Status" value ["Occasional"; "Regular"] with
  | Some v => DF.set_col ("smoking_status_" ++ v) (VInt 1) df
  | None =>
  match key_and_in key "Employment Status" value ["Salaried"; "Self-Employed"] with
  | Some v => DF.set_col ("employment_status_" ++ v) (VInt 1) df
  | None =>
  if String.eqb key "Insurance Plan" then
    DF.set_col "insurance_plan" (VInt (insurance_plan_code value)) df
  else if String.eqb key "Age" then
    DF.set_col "age" value df
  else if String.eqb key "Number of Dependants" then
    DF.set_col "number_of_dependants" value df
  else if String.eqb key "Income in Lakhs" then
    DF.set_col "income_lakhs" value df
  else if String.eqb key "Genetical Risk" then
    DF.set_col "genetical_risk" value df
  else df
  end end end.

(** Lines 87-113: the frame of zeros, then the loop over the items. *)
Definition encode_items (input_dict : raw_input) : dataframe :=
  fold_left encode_step input_dict (DF.create (VInt 0) expected_columns).

(** [calculate_normalized_risk(v)] for a Python value: only a [str] has [lower]. *)
Definition risk_of_value (v : value) : result Qc :=
  match v with
  | VStr s => Ok (calculate_normalized_risk s)
  | _ => Raise AttributeError
  end.

(** Lines 87-115: the Feature Row as it is handed to the scaling step. *)
Definition feature_row (input_dict : raw_input) : result dataframe :=
  let df := encode_items input_dict in
  do mh <- dict_item input_dict "Medical History";
  do risk <- risk_of_value mh;
  Ok (DF.set_col "normalized_risk_score" (VFloat risk) df).

Section Artifacts.

Variables scaler_young scaler_rest : scaler_bundle.
Variables model_young model_rest : model.

(** Lines 53-61, for the bundle that line 52 picked. *)
Definition scale_with (scaler_object : scaler_bundle) (df : dataframe)
  : result dataframe :=
  let cols := cols_to_scale scaler_object in
  let df := DF.set_col "income_level" (VInt 0) df in
  do sel <- DF.select cols df;
  do scaled <- transform scaler_object sel;
  do df <- DF.assign cols scaled df;
  DF.drop "income_level" df.

Definition handle_scaling (age : value) (df : dataframe) : result dataframe :=
  do young <- py_le age 25;
  let scaler_object := if young then scaler_young else scaler_rest in
  scale_with scaler_object df.

Definition preprocess_input (input_dict : raw_input) : result dataframe :=
  do df <- feature_row input_dict;
  do age <- dict_item input_dict "Age";
  handle_scaling age df.

(** Lines 124-125, for the model that line 123 picked. *)
Definition predict_with (m : model) (input_df : dataframe) : result Z :=
  do prediction <- model_predict m input_df;
  match prediction with
  | p :: _ => Ok (py_int p)
  | [] => Raise IndexError
  end.

Definition predict (input_dict : raw_input) : result Z :=
  do input_df <- preprocess_input input_dict;
  do age <- dict_item input_dict "Age";
  do young <- py_le age 25;
  let m := if young then model_young else model_rest in
  predict_with m input_df.

End Artifacts.

(** ** Artifact store (lines 8-24) *)

(** What loading can raise.  [ModuleNotFoundError] carries the [name]
    attribute, [FileNotFoundError] the [filename] attribute, both [None]
    when the exception is built from a message alone. *)
Inductive load_exn : Type :=
| ModuleNotFoundError (name : option string) (msg : string)
| FileNotFoundError (filename : option string) (msg : string)
| OtherError (msg : string).

Inductive loaded (A : Type) : Type :=
| Loaded (a : A)
| LoadRaise (e : load_exn).

Arguments Loaded {A} a.
Arguments LoadRaise {A} e.

(** [s.endswith(a)] for a character [a] *)
Fixpoint ends_with (a : ascii) (s : string) : bool :=
  match s with
  | EmptyString => false
  | String c s' =>
      match s' with
      | EmptyString => Ascii.eqb c a
      | String _ _ => ends_with a s'
      end
  end.

(** [os.path.join(dir, name)] on POSIX *)
Definition path_join (dir name : string) : string :=
  if String.prefix "/" name then name
  else if String.eqb dir EmptyString || ends_with "/" dir then dir ++ name
  else dir ++ "/" ++ name.

(** An attribute inside an f-string: [None] prints as its name. *)
Definition fstr_attr (a : option string) : string :=
  match a with
  | Some s => s
  | None => "None"
  end.

(** The two [except] clauses of lines 21-24; any other exception passes. *)
Definition reraise (e : load_exn) : load_exn :=
  match e with
  | ModuleNotFoundError name _ =>
      ModuleNotFoundError None
        ("Missing module required to load models/scalers: " ++ fstr_attr name)
  | FileNotFoundError filename _ =>
      FileNotFoundError None ("Model/scaler file not found: " ++ fstr_attr filename)
  | OtherError _ => e
  end.

(** The file names, in the order lines 17-20 load them. *)
Definition artifact_names : list string :=
  ["model_young.joblib"; "model_rest.joblib"; "scaler_young.joblib";
   "scaler_rest.joblib"].

(** Lines 8-24.  [here] is the directory of the module, [makedirs] the
    outcome of [os.makedirs(path, exist_ok=True)] ([None]: no exception)
    and [load] the outcome of [joblib.load] on a path.  The result holds
    [model_young], [model_rest], [scaler_young], [scaler_rest]. *)
Definition load_artifacts {A : Type} (here : string)
    (makedirs : string -> option load_exn) (load : string -> loaded A)
  : loaded (A * A * A * A) :=
  let ARTIFACTS_DIR := path_join here "artifacts" in
  match makedirs ARTIFACTS_DIR with
  | Some e => LoadRaise e
  | None =>
      match load (path_join ARTIFACTS_DIR "model_young.joblib") with
      | LoadRaise e => LoadRaise (reraise e)
      | Loaded model_young =>
      match load (path_join ARTIFACTS_DIR "model_rest.joblib") with
      | LoadRaise e => LoadRaise (reraise e)
      | Loaded model_rest =>
      match load (path_join ARTIFACTS_DIR "scaler_young.joblib") with
      | LoadRaise e => LoadRaise (reraise e)
      | Loaded scaler_young =>
      match load (path_join ARTIFACTS_DIR "scaler_rest.joblib") with
      | LoadRaise e => LoadRaise (reraise e)
      | Loaded scaler_rest =>
          Loaded (model_young, model_rest, scaler_young, scaler_rest)
      end end end end
  end.

(** * Specification vocabulary *)

(** ** Risk score, in the words of the specification *)

(** The weight table as the specification words it. *)
Definition spec_weight (part : string) : Z :=
  if decide (part = "diabetes") then 6
  else if decide (part = "heart disease") then 8
  else if decide (part = "high blood pressure") then 6
  else if decide (part = "thyroid") then 5
  else if decide (part = "no disease") then 0
  else if decide (part = "none") then 0
  else 0.

(** Sum of the weights of a list of parts. *)
Definition spec_total (parts : list string) : Z :=
  foldr (fun part acc => spec_weight part + acc) 0 parts.

(** The quotient of lines 44-47 as a function of the integer total. *)
Definition ratio (total : Z) : Qc := (Z2Qc (total - 0) / Z2Qc (14 - 0))%Qc.

Definition known_conditions : list string :=
  ["diabetes"; "heart disease"; "high blood pressure"; "thyroid";
   "no disease"; "none"].

(** A known condition name, in any letter case. *)
Definition known (name : string) : Prop :=
  In (PyStr.lower name) known_conditions.

(** The medical-history string that lists [names]. *)
Definition history (names : list string) : string := PyStr.join " & " names.

(** What may follow a part inside a joined string: nothing, or a
    separator and more. *)
Definition after_part (rest : string) : Prop :=
  rest = EmptyString \/ exists r, rest = " & " ++ r.

(** ** Encoding rules, in the words of the specification *)

(** The rules of the encoder as the specification lists them: what one
    (key, value) pair of the raw input writes, if anything. *)
Definition onehot (v : value) (table : list (string * string))
  : option (string * value) :=
  match v with
  | VStr s => (fun c => (c, VInt 1)) <$> assoc s table
  | _ => None
  end.

Definition spec_plan (v : value) : Z :=
  match v with
  | VStr s =>
      if decide (s = "Bronze") then 1
      else if decide (s = "Silver") then 2
      else if decide (s = "Gold") then 3
      else 1
  | _ => 1
  end.

(** Categorical attributes: accepted value and the column it switches on. *)
Definition onehot_tables : list (string * list (string * string)) :=
  [ ("Gender", [("Male", "gender_Male")]);
    ("Region",
      [("Northwest", "region_Northwest"); ("Southeast", "region_Southeast");
       ("Southwest", "region_Southwest")]);
    ("Marital Status", [("Unmarried", "marital_status_Unmarried")]);
    ("BMI Category",
      [("Obesity", "bmi_category_Obesity");
       ("Overweight", "bmi_category_Overweight");
       ("Underweight", "bmi_category_Underweight")]);
    ("Smoking Status",
      [("Occasional", "smoking_status_Occasional");
       ("Regular", "smoking_status_Regular")]);
    ("Employment Status",
      [("Salaried", "employment_status_Salaried");
       ("Self-Employed", "employment_status_Self-Employed")]) ].

(** Numeric attributes copied through, and their column. *)
Definition passthrough : list (string * string) :=
  [ ("Age", "age"); ("Number of Dependants", "number_of_dependants");
    ("Income in Lakhs", "income_lakhs"); ("Genetical Risk", "genetical_risk") ].

Definition spec_rule (key : string) (v : value) : option (string * value) :=
  match assoc key onehot_tables with
  | Some table => onehot v table
  | None =>
      if String.eqb key "Insurance Plan"
      then Some ("insurance_plan", VInt (spec_plan v))
      else (fun c => (c, v)) <$> assoc key passthrough
  end.

(** The raw-input key that feeds each column written by the loop. *)
Definition column_key : list (string * string) :=
  [ ("age", "Age"); ("number_of_dependants", "Number of Dependants");
    ("income_lakhs", "Income in Lakhs"); ("insurance_plan", "Insurance Plan");
    ("genetical_risk", "Genetical Risk"); ("gender_Male", "Gender");
    ("region_Northwest", "Region"); ("region_Southeast", "Region");
    ("region_Southwest", "Region");
    ("marital_status_Unmarried", "Marital Status");
    ("bmi_category_Obesity", "BMI Category");
    ("bmi_category_Overweight", "BMI Category");
    ("bmi_category_Underweight", "BMI Category");
    ("smoking_status_Occasional", "Smoking Status");
    ("smoking_status_Regular", "Smoking Status");
    ("employment_status_Salaried", "Employment Status");
    ("employment_status_Self-Employed", "Employment Status") ].

(** The cell that the pair [(key, v)] writes into column [c], if it writes there. *)
Definition written (c : string) (key : string) (v : value) : option value :=
  match spec_rule key v with
  | Some (c', x) => if String.eqb c' c then Some x else None
  | None => None
  end.

(** What the loop leaves in column [c], read off the raw input. *)
Definition spec_cell (input_dict : raw_input) (c : string) : option value :=
  let zero := if existsb (String.eqb c) expected_columns then Some (VInt 0) else None in
  match assoc c column_key with
  | None => zero
  | Some key =>
      match dict_lookup input_dict key with
      | None => zero
      | Some v =>
          match written c key v with
          | Some x => Some x
          | None => zero
          end
      end
  end.

Definition categorical_keys : list string :=
  ["Gender"; "Region"; "Marital Status"; "BMI Category"; "Smoking Status";
   "Employment Status"].

(** The values a categorical attribute accepts, and its one-hot columns. *)
Definition accepted (key : string) : list string :=
  map fst (default [] (assoc key onehot_tables)).

Definition onehot_columns (key : string) : list string :=
  map snd (default [] (assoc key onehot_tables)).

(** The keys the loop has a branch for. *)
Definition recognized_keys : list string :=
  (categorical_keys ++ "Insurance Plan" :: map fst passthrough)%list.

(** A pair the encoder has no rule for: a categorical attribute with a
    value outside its accepted values, or a key the loop does not know. *)
Definition unrecognized (key : string) (v : value) : Prop :=
  (In key categorical_keys /\ forall s, In s (accepted key) -> v <> VStr s)
  \/ ~ In key recognized_keys.

(** The number a Python value is, when it is one. *)
Definition number (v : value) : option Q :=
  match v with
  | VInt z => Some (inject_Z z)
  | VFloat q => Some (this q)
  | VStr _ => None
  end.

(** ** Sample artifacts and inputs *)

(** A scaler bundle in the shape the placeholder is there for: it was fit
    on a column [income_level] that the encoder does not produce. *)
Definition demo_scaler : scaler_bundle :=
  {| cols_to_scale :=
       ["age"; "number_of_dependants"; "income_level"; "income_lakhs";
        "insurance_plan"; "genetical_risk"];
     transform := fun sel =>
       Ok (map (fun cv : string * value =>
                  match snd cv with
                  | VInt z => VFloat (Z2Qc z / Z2Qc 100)%Qc
                  | v => v
                  end) sel) |}.

Definition demo_model : model :=
  {| model_predict := fun _ => Ok [Q2Qc (24691 # 2)] |}.

Definition sample : raw_input :=
  [("Age", VInt 22); ("Gender", VStr "Male"); ("Region", VStr "Southeast");
   ("Marital Status", VStr "Unmarried"); ("BMI Category", VStr "Normal");
   ("Smoking Status", VStr "Never"); ("Employment Status", VStr "Salaried");
   ("Insurance Plan", VStr "Gold"); ("Number of Dependants", VInt 2);
   ("Income in Lakhs", VInt 10); ("Genetical Risk", VInt 3);
   ("Medical History", VStr "diabetes")].

Definition sample_at (age : Z) : raw_input :=
  [("Age", VInt age); ("Medical History", VStr "none")].

Definition atlantis : raw_input :=
  [("Age", VInt 40); ("Region", VStr "Atlantis"); ("Planet", VStr "Earth");
   ("Medical History", VStr "none")].

Definition unwrap (r : result dataframe) : dataframe :=
  match r with
  | Ok df => df
  | Raise _ => []
  end.

Definition sample_row : dataframe := unwrap (feature_row sample).

Definition sample_scaled : dataframe :=
  unwrap (preprocess_input demo_scaler demo_scaler sample).

(** ** Further vocabulary *)

(** The condition names that carry a positive weight. *)
Definition weighted_names : list string :=
  ["diabetes"; "heart disease"; "high blood pressure"; "thyroid"].

(** [part] is, once lowercased, a name with a positive weight. *)
Definition weighted (part : string) : bool :=
  existsb (String.eqb (PyStr.lower part)) weighted_names.

(** No part holds an ampersand, so joining the parts adds no separator
    beyond the ones between them. *)
Definition amp_free (parts : list string) : Prop :=
  Forall (fun p => PyStr.has_char "&" p = false) parts.


(** A bundle that scales nothing. *)
Definition idle_scaler : scaler_bundle :=
  {| cols_to_scale := []; transform := fun _ => Ok [] |}.

(** A loader that finds the young model and misses the other files. *)
Definition demo_load (path : string) : loaded nat :=
  if String.eqb path "app/artifacts/model_young.joblib" then Loaded 1%nat
  else LoadRaise (FileNotFoundError (Some path) "No such file or directory").

(** * Properties *)

(** ** Strings *)

Module PyStrFacts.
Import PyStr.

Lemma app_cons c (s t : string) : String c s ++ t = String c (s ++ t).
Proof. reflexivity. Qed.

Lemma app_empty_r (s : string) : s ++ EmptyString = s.
Proof.
  induction s as [|c s IH]; [reflexivity |]. now rewrite app_cons, IH.
Qed.

Lemma lower_app (s t : string) : lower (s ++ t) = lower s ++ lower t.
Proof.
  induction s as [|c s IH]; [reflexivity |].
  rewrite app_cons. cbn [lower]. now rewrite app_cons, IH.
Qed.

Lemma prefix_app (sep r : string) : String.prefix sep (sep ++ r) = true.
Proof.
  induction sep as [|c sep IH]; [now destruct r |].
  rewrite app_cons. cbn [String.prefix].
  destruct (ascii_dec c c); [assumption | congruence].
Qed.

Lemma prefix_inv (sep s : string) :
  String.prefix sep s = true -> exists r, s = sep ++ r.
Proof.
  revert s. induction sep as [|c sep IH]; intros s H.
  - now exists s.
  - destruct s as [|c' s]; cbn [String.prefix] in H; [discriminate |].
    destruct (ascii_dec c c') as [->|]; [| discriminate].
    destruct (IH _ H) as [r ->]. now exists r.
Qed.

Lemma split_from_nonempty sep k s : split_from sep k s <> [].
Proof.
  revert k. induction s as [|c s IH]; intros k; cbn [split_from]; [done |].
  destruct k; [| apply IH].
  destruct (String.prefix sep (String c s)); [done |].
  destruct (split_from sep 0 s); done.
Qed.

Lemma split_from_skip sep (u r : string) :
  split_from sep (String.length u) (u ++ r) = split_from sep 0 r.
Proof.
  induction u as [|c u IH]; [reflexivity |].
  rewrite app_cons. cbn [String.length split_from]. exact IH.
Qed.

(** A separator at the front closes an empty part. *)
Lemma split_sep (sep r : string) :
  sep <> EmptyString -> split sep (sep ++ r) = EmptyString :: split sep r.
Proof.
  intros Hne. destruct sep as [|c sep]; [congruence |].
  unfold split. rewrite app_cons. cbn [split_from]. rewrite <- app_cons.
  rewrite prefix_app. cbn [String.length pred].
  now rewrite split_from_skip.
Qed.

(** Any other character joins the part under construction. *)
Lemma split_char (sep : string) c (s : string) :
  String.prefix sep (String c s) = false ->
  split sep (String c s) =
    match split sep s with
    | p :: ps => String c p :: ps
    | [] => [String c EmptyString]
    end.
Proof. intros H. unfold split. cbn [split_from]. now rewrite H. Qed.

Lemma split_part (p rest : string) :
  has_char "&" p = false -> after_part rest ->
  split " & " (p ++ rest) = p :: tail (split " & " rest).
Proof.
  intros Hp Hrest. induction p as [|c p IH].
  - change (EmptyString ++ rest) with rest.
    destruct Hrest as [-> | [r ->]]; [reflexivity |].
    now rewrite (split_sep " & ").
  - cbn [has_char] in Hp. apply orb_false_elim in Hp as [Hc Hp].
    specialize (IH Hp).
    rewrite app_cons, split_char.
    + rewrite IH. reflexivity.
    + cbn [String.prefix]. destruct (ascii_dec " " c); [| reflexivity].
      destruct p as [|c2 p].
      * destruct Hrest as [-> | [r ->]]; reflexivity.
      * rewrite app_cons. cbn [has_char] in Hp.
        apply orb_false_elim in Hp as [Hc2 _]. cbn [String.prefix].
        destruct (ascii_dec "&" c2) as [<-|]; [discriminate | reflexivity].
Qed.

Lemma split_whole (p : string) : has_char "&" p = false -> split " & " p = [p].
Proof.
  intros Hp. rewrite <- (app_empty_r p) at 1.
  rewrite split_part; [reflexivity | assumption | now left].
Qed.

Lemma join_cons2 sep (p q : string) (ps : list string) :
  join sep (p :: q :: ps) = p ++ sep ++ join sep (q :: ps).
Proof. reflexivity. Qed.

(** Splitting undoes joining when no part holds an ampersand. *)
Lemma split_join (ps : list string) :
  ps <> [] -> Forall (fun p => has_char "&" p = false) ps ->
  split " & " (join " & " ps) = ps.
Proof.
  intros Hne Hall. induction Hall as [|p ps Hp Hall IH]; [congruence |].
  destruct ps as [|q ps].
  - apply split_whole, Hp.
  - rewrite join_cons2, split_part; [| assumption | right; eauto].
    rewrite split_sep by done. cbn [tail].
    f_equal. apply IH. done.
Qed.

Lemma lower_join (ps : list string) :
  lower (join " & " ps) = join " & " (map lower ps).
Proof.
  induction ps as [|p ps IH]; [reflexivity |].
  destruct ps as [|q ps]; [reflexivity |].
  rewrite join_cons2, !lower_app, IH. reflexivity.
Qed.

(** Joining undoes splitting, for every string. *)
Lemma join_split_aux (n : nat) : forall s : string,
  (String.length s <= n)%nat -> join " & " (split " & " s) = s.
Proof.
  induction n as [|n IH]; intros s Hlen.
  - destruct s; [reflexivity | simpl in Hlen; lia].
  - destruct s as [|c s]; [reflexivity |].
    destruct (String.prefix " & " (String c s)) eqn:Hpre.
    + apply prefix_inv in Hpre as [r Hr]. rewrite Hr.
      rewrite split_sep by done.
      assert (Hlr : (String.length r <= n)%nat).
      { change (" & " ++ r) with (String " " (String "&" (String " " r))) in Hr.
        injection Hr as _ ->. cbn [String.length] in Hlen. lia. }
      specialize (IH r Hlr).
      pose proof (split_from_nonempty " & " 0 r) as Hne.
      unfold split in *. destruct (split_from " & " 0 r) as [|q qs]; [congruence |].
      change (join " & " (EmptyString :: q :: qs)) with (" & " ++ join " & " (q :: qs)).
      now rewrite IH.
    + rewrite split_char by assumption.
      assert (Hls : (String.length s <= n)%nat) by (simpl in Hlen; lia).
      specialize (IH s Hls).
      pose proof (split_from_nonempty " & " 0 s) as Hne.
      unfold split in *. destruct (split_from " & " 0 s) as [|q qs]; [congruence |].
      destruct qs as [|q' qs]; simpl in IH |- *; now rewrite <- IH.
Qed.

Lemma join_split (s : string) : join " & " (split " & " s) = s.
Proof. apply (join_split_aux (String.length s)). lia. Qed.

End PyStrFacts.

(** ** Risk score *)

Lemma risk_scores_get (part : string) :
  dict_get_default risk_scores part 0 = spec_weight part.
Proof.
  unfold dict_get_default, spec_weight, risk_scores.
  repeat (case_decide; [subst part; vm_compute; reflexivity |]).
  rewrite !lookup_insert_ne by congruence. now rewrite lookup_empty.
Qed.

Lemma fold_left_add (l : list Z) (a : Z) :
  fold_left Z.add l a = a + fold_left Z.add l 0.
Proof.
  revert a. induction l as [|x l IH]; intros a; simpl; [lia |].
  rewrite (IH (a + x)), (IH (0 + x)). lia.
Qed.

Lemma sum_cons (x : Z) (l : list Z) : sum (x :: l) = x + sum l.
Proof. unfold sum. simpl. apply fold_left_add. Qed.

Lemma sum_weights (parts : list string) :
  sum (map (fun disease => dict_get_default risk_scores disease 0) parts)
  = spec_total parts.
Proof.
  induction parts as [|p parts IH]; [reflexivity |].
  cbn [map]. rewrite sum_cons, IH, risk_scores_get. reflexivity.
Qed.

Lemma total_risk_score_spec (s : string) :
  total_risk_score s = spec_total (PyStr.split " & " (PyStr.lower s)).
Proof. unfold total_risk_score. apply sum_weights. Qed.

Lemma calculate_normalized_risk_ratio (s : string) :
  calculate_normalized_risk s = ratio (total_risk_score s).
Proof. reflexivity. Qed.

Lemma ratio_this (t : Z) : (this (ratio t) == t # 14)%Q.
Proof.
  unfold ratio, Qcdiv, Qcmult, Qcinv, Z2Qc, Q2Qc. cbn [this].
  rewrite !Qred_correct. unfold Qeq, Qmult, Qinv, inject_Z. simpl. lia.
Qed.

Lemma ratio_le (t1 t2 : Z) : (ratio t1 <= ratio t2)%Qc <-> t1 <= t2.
Proof.
  unfold Qcle. rewrite !ratio_this. unfold Qle. simpl. lia.
Qed.

Lemma ratio_0 : ratio 0 = 0%Qc.
Proof. apply Qc_is_canon. reflexivity. Qed.

Lemma ratio_14 : ratio 14 = 1%Qc.
Proof. apply Qc_is_canon. reflexivity. Qed.

Lemma ratio_div (t : Z) : ratio t = (Z2Qc t / Z2Qc 14)%Qc.
Proof. unfold ratio. now rewrite Z.sub_0_r. Qed.

(** C1: the risk score is the sum of the table weights of the lowercased
    parts between the separators, divided by 14; it is 0 for "none" and 1
    for "heart disease & diabetes". *)
Theorem calculate_normalized_risk_spec :
  (forall s : string,
     calculate_normalized_risk s
     = (Z2Qc (spec_total (PyStr.split " & " (PyStr.lower s))) / Z2Qc 14)%Qc)
  /\ calculate_normalized_risk "none" = 0%Qc
  /\ calculate_normalized_risk "heart disease & diabetes" = 1%Qc.
Proof.
  split; [| split].
  - intros s. now rewrite calculate_normalized_risk_ratio, total_risk_score_spec, ratio_div.
  - apply Qc_is_canon. vm_compute. reflexivity.
  - apply Qc_is_canon. vm_compute. reflexivity.
Qed.

(** *** Histories made of known condition names *)

Lemma known_no_amp (name : string) :
  known name -> PyStr.has_char "&" (PyStr.lower name) = false.
Proof.
  unfold known, known_conditions. cbn [In].
  intros H. repeat (destruct H as [<- | H]; [reflexivity |]). destruct H.
Qed.

Lemma spec_weight_range (part : string) : 0 <= spec_weight part <= 8.
Proof. unfold spec_weight. repeat case_decide; lia. Qed.

Lemma spec_total_cons (p : string) (l : list string) :
  spec_total (p :: l) = spec_weight p + spec_total l.
Proof. reflexivity. Qed.

Lemma spec_total_nonneg (parts : list string) : 0 <= spec_total parts.
Proof.
  induction parts as [|p parts IH]; [done |].
  rewrite spec_total_cons. pose proof (spec_weight_range p). lia.
Qed.

Lemma spec_total_app (l1 l2 : list string) :
  spec_total (l1 ++ l2)%list = spec_total l1 + spec_total l2.
Proof.
  induction l1 as [|p l1 IH]; [reflexivity |].
  rewrite <- app_comm_cons, !spec_total_cons, IH. lia.
Qed.

Lemma total_history (names : list string) :
  Forall known names ->
  total_risk_score (history names) = spec_total (map PyStr.lower names).
Proof.
  intros Hk. rewrite total_risk_score_spec. unfold history.
  rewrite PyStrFacts.lower_join.
  destruct names as [|n names]; [reflexivity |].
  rewrite PyStrFacts.split_join; [reflexivity | done |].
  apply Forall_map. eapply Forall_impl; [exact Hk |].
  intros name. apply known_no_amp.
Qed.

Lemma two_distinct_le_14 (names : list string) :
  Forall known names -> (length names <= 2)%nat ->
  NoDup (map PyStr.lower names) ->
  spec_total (map PyStr.lower names) <= 14.
Proof.
  intros Hk Hlen Hnd.
  destruct names as [|a [|b [|c names]]]; cbn [length] in Hlen; [| | | lia].
  - cbn. lia.
  - cbn [map]. rewrite spec_total_cons. pose proof (spec_weight_range (PyStr.lower a)).
    cbn. lia.
  - apply Forall_cons in Hk as [Ha Hk]. apply Forall_cons in Hk as [Hb _].
    cbn [map] in *. apply NoDup_cons in Hnd as [Hab _].
    rewrite list_elem_of_singleton in Hab.
    unfold known, known_conditions in Ha, Hb. cbn [In] in Ha, Hb.
    revert Hab.
    repeat (destruct Ha as [<- | Ha]; [| ]); try (destruct Ha);
    repeat (destruct Hb as [<- | Hb]; [| ]); try (destruct Hb);
    intros Hab; try congruence; vm_compute; discriminate.
Qed.

Lemma risk_history (names : list string) :
  Forall known names ->
  calculate_normalized_risk (history names)
  = ratio (spec_total (map PyStr.lower names)).
Proof. intros Hk. now rewrite calculate_normalized_risk_ratio, total_history. Qed.

(** C4, as amended: for a history made only of known condition names the
    score is never negative; it is at most 1 exactly when the listed
    weights sum to at most 14, which holds whenever at most two distinct
    conditions are listed; inserting one more known condition anywhere
    never lowers the score, nor does replacing a condition by one of at
    least its weight. *)
Theorem risk_known_conditions (names : list string) :
  Forall known names ->
  (0 <= calculate_normalized_risk (history names))%Qc
  /\ ((calculate_normalized_risk (history names) <= 1)%Qc
      <-> spec_total (map PyStr.lower names) <= 14)
  /\ ((length names <= 2)%nat -> NoDup (map PyStr.lower names) ->
      (calculate_normalized_risk (history names) <= 1)%Qc)
  /\ (forall (l1 l2 : list string) (c : string),
        names = (l1 ++ l2)%list -> known c ->
        (calculate_normalized_risk (history names)
         <= calculate_normalized_risk (history (l1 ++ c :: l2)%list))%Qc)
  /\ (forall (l1 l2 : list string) (c c' : string),
        names = (l1 ++ c :: l2)%list -> known c' ->
        spec_weight (PyStr.lower c) <= spec_weight (PyStr.lower c') ->
        (calculate_normalized_risk (history names)
         <= calculate_normalized_risk (history (l1 ++ c' :: l2)%list))%Qc).
Proof.
  intros Hk. rewrite (risk_history names Hk).
  assert (Hle1 : (ratio (spec_total (map PyStr.lower names)) <= 1)%Qc
                 <-> spec_total (map PyStr.lower names) <= 14).
  { rewrite <- ratio_14. apply ratio_le. }
  repeat split.
  - rewrite <- ratio_0. apply ratio_le, spec_total_nonneg.
  - apply Hle1.
  - apply Hle1.
  - intros Hlen Hnd. apply Hle1. now apply two_distinct_le_14.
  - intros l1 l2 c -> Hc.
    rewrite risk_history.
    + apply ratio_le. rewrite !map_app, !spec_total_app. cbn [map].
      rewrite spec_total_cons. pose proof (spec_weight_range (PyStr.lower c)). lia.
    + apply Forall_app in Hk as [H1 H2]. apply Forall_app. split; [done |].
      now apply Forall_cons.
  - intros l1 l2 c c' -> Hc' Hw.
    rewrite risk_history.
    + apply ratio_le. rewrite !map_app, !spec_total_app. cbn [map].
      rewrite !spec_total_cons. lia.
    + apply Forall_app in Hk as [H1 H2]. apply Forall_cons in H2 as [_ H2].
      apply Forall_app. split; [done |]. now apply Forall_cons.
Qed.

Lemma known_diabetes : known "Diabetes".
Proof. unfold known. cbn. tauto. Qed.

Lemma known_thyroid : known "thyroid".
Proof. unfold known. cbn. tauto. Qed.

Lemma known_heart : known "heart disease".
Proof. unfold known. cbn. tauto. Qed.

Lemma risk_known_conditions_witness :
  Forall known ["Diabetes"; "thyroid"]
  /\ (0 <= calculate_normalized_risk (history ["Diabetes"; "thyroid"]))%Qc.
Proof.
  assert (Hk : Forall known ["Diabetes"; "thyroid"]).
  { constructor; [exact known_diabetes |].
    constructor; [exact known_thyroid | constructor]. }
  split; [exact Hk |].
  exact (proj1 (risk_known_conditions ["Diabetes"; "thyroid"] Hk)).
Defined.

(** C4 as first stated fails: three known conditions score 19/14. *)
Lemma risk_above_one :
  Forall known ["heart disease"; "diabetes"; "thyroid"]
  /\ ~ (calculate_normalized_risk (history ["heart disease"; "diabetes"; "thyroid"]) <= 1)%Qc.
Proof.
  split.
  - constructor; [exact known_heart |].
    constructor; [unfold known; cbn; tauto |].
    constructor; [exact known_thyroid | constructor].
  - intros H. vm_compute in H. apply H. reflexivity.
Qed.

(** ** Association lists *)

Section Assoc.
Context {A : Type}.
Implicit Types (l : list (string * A)) (k : string).

Lemma assoc_nil k : assoc k ([] : list (string * A)) = None.
Proof. reflexivity. Qed.

Lemma assoc_cons k k' (v : A) l :
  assoc k ((k', v) :: l) = if String.eqb k' k then Some v else assoc k l.
Proof. unfold assoc. cbn [List.find fst]. now destruct (String.eqb k' k). Qed.

Lemma assoc_app k l1 l2 :
  assoc k (l1 ++ l2)%list
  = match assoc k l1 with Some v => Some v | None => assoc k l2 end.
Proof.
  induction l1 as [|[k' v] l1 IH]; [reflexivity |].
  rewrite <- app_comm_cons, !assoc_cons. now destruct (String.eqb k' k).
Qed.

Lemma assoc_None k l : assoc k l = None <-> ~ In k (map fst l).
Proof.
  induction l as [|[k' v] l IH]; [cbn; tauto |].
  rewrite assoc_cons. cbn [map fst In].
  destruct (String.eqb_spec k' k) as [-> | Hne]; [| tauto].
  split; [discriminate | tauto].
Qed.

Lemma assoc_Some_In k (v : A) l : assoc k l = Some v -> In (k, v) l.
Proof.
  induction l as [|[k' v'] l IH]; [discriminate |].
  rewrite assoc_cons. destruct (String.eqb_spec k' k) as [-> | Hne].
  - intros [= ->]. now left.
  - intros H. right. now apply IH.
Qed.

Lemma assoc_In_NoDup k (v : A) l :
  NoDup (map fst l) -> In (k, v) l -> assoc k l = Some v.
Proof.
  induction l as [|[k' v'] l IH]; [intros _ [] |].
  cbn [map fst]. intros Hnd Hin. apply NoDup_cons in Hnd as [Hk' Hnd].
  rewrite assoc_cons. destruct Hin as [[= -> ->] | Hin].
  - now rewrite String.eqb_refl.
  - destruct (String.eqb_spec k' k) as [-> | Hne]; [| now apply IH].
    exfalso. apply Hk'. apply list_elem_of_In.
    change k with (fst (k, v)). now apply in_map.
Qed.

(** Looking a key up does not depend on the order of the entries. *)
Lemma assoc_Permutation k l1 l2 :
  NoDup (map fst l1) -> Permutation l1 l2 -> assoc k l1 = assoc k l2.
Proof.
  intros Hnd Hp.
  assert (Hnd2 : NoDup (map fst l2)).
  { assert (Hpm : Permutation (map fst l1) (map fst l2))
      by now apply Permutation_map.
    now rewrite <- Hpm. }
  destruct (assoc k l1) as [v|] eqn:H1.
  - symmetry. apply assoc_In_NoDup; [assumption |].
    eapply Permutation_in; [exact Hp |]. now apply assoc_Some_In.
  - symmetry. apply assoc_None. apply assoc_None in H1.
    intros Hin. apply H1. eapply Permutation_in; [| exact Hin].
    apply Permutation_map. now symmetry.
Qed.

End Assoc.

(** ** Data frames *)

Module DFFacts.
Import DF.

Lemma has_col_In c df : has_col c df = true <-> In c (columns df).
Proof.
  unfold has_col. rewrite existsb_exists. split.
  - intros [x [Hin Heq]]. apply String.eqb_eq in Heq. now subst.
  - intros Hin. exists c. split; [assumption | apply String.eqb_refl].
Qed.

Lemma has_col_false c df : has_col c df = false <-> get_col c df = None.
Proof.
  unfold get_col. rewrite assoc_None. fold (columns df).
  rewrite <- has_col_In. now destruct (has_col c df).
Qed.

Lemma columns_create fill cols : columns (create fill cols) = cols.
Proof.
  unfold columns, create. rewrite map_map. cbn [fst]. apply map_id.
Qed.

Lemma get_col_create fill cols c :
  get_col c (create fill cols) = if existsb (String.eqb c) cols then Some fill else None.
Proof.
  unfold get_col, create. induction cols as [|c' cols IH]; [reflexivity |].
  cbn [map existsb]. rewrite assoc_cons, IH, (String.eqb_sym c c').
  now destruct (String.eqb c' c).
Qed.

Lemma columns_overwrite c v df :
  columns (map (fun cv : string * value =>
                  if String.eqb (fst cv) c then (fst cv, v) else cv) df)
  = columns df.
Proof.
  unfold columns. rewrite map_map. apply map_ext.
  intros [c' x]. cbn [fst]. now destruct (String.eqb c' c).
Qed.

Lemma columns_set_col c v df :
  columns (set_col c v df)
  = if has_col c df then columns df else (columns df ++ [c])%list.
Proof.
  unfold set_col. destruct (has_col c df).
  - apply columns_overwrite.
  - unfold columns. now rewrite map_app.
Qed.

Lemma columns_set_col_In c v df :
  In c (columns df) -> columns (set_col c v df) = columns df.
Proof.
  intros Hin. rewrite columns_set_col.
  apply has_col_In in Hin. now rewrite Hin.
Qed.

Lemma get_col_overwrite c' v df c :
  get_col c (map (fun cv : string * value =>
                    if String.eqb (fst cv) c' then (fst cv, v) else cv) df)
  = if String.eqb c' c
    then (if has_col c' df then Some v else None)
    else get_col c df.
Proof.
  unfold get_col, has_col, columns.
  induction df as [|[c0 x] df IH].
  - cbn. now destruct (String.eqb c' c).
  - cbn [map fst existsb].
    destruct (String.eqb_spec c0 c') as [-> | Hne].
    + rewrite !assoc_cons, String.eqb_refl. cbn [orb].
      now destruct (String.eqb c' c).
    + rewrite !assoc_cons, IH.
      destruct (String.eqb_spec c' c0) as [-> | _]; [congruence |]. cbn [orb].
      destruct (String.eqb_spec c0 c) as [-> | Hne2]; [| reflexivity].
      destruct (String.eqb_spec c' c) as [-> | _]; [congruence | reflexivity].
Qed.

(** Reading a column back after [df[c'] = v]. *)
Lemma get_set_col c' v df c :
  get_col c (set_col c' v df) = if String.eqb c' c then Some v else get_col c df.
Proof.
  unfold set_col. destruct (has_col c' df) eqn:Hhas.
  - now rewrite get_col_overwrite, Hhas.
  - unfold get_col in *. rewrite assoc_app, assoc_cons, assoc_nil.
    apply has_col_false in Hhas. unfold get_col in Hhas.
    destruct (String.eqb_spec c' c) as [-> | Hne].
    + now rewrite Hhas.
    + now destruct (assoc c df).
Qed.

Lemma get_set_col_eq c v df : get_col c (set_col c v df) = Some v.
Proof. now rewrite get_set_col, String.eqb_refl. Qed.

Lemma get_set_col_ne c' v df c :
  c' <> c -> get_col c (set_col c' v df) = get_col c df.
Proof.
  intros Hne. rewrite get_set_col.
  now destruct (String.eqb_spec c' c).
Qed.

(** A frame whose column names are pairwise distinct is determined by
    its column names and its cells. *)
Lemma dataframe_ext (df1 df2 : dataframe) :
  NoDup (columns df1) -> columns df1 = columns df2 ->
  (forall c, get_col c df1 = get_col c df2) -> df1 = df2.
Proof.
  revert df2. induction df1 as [|[c x] df1 IH]; intros df2 Hnd Hcols Hget.
  - destruct df2; [reflexivity | discriminate].
  - destruct df2 as [|[c2 x2] df2]; [discriminate |].
    cbn [columns map fst] in Hcols, Hnd. injection Hcols as <- Hcols.
    apply NoDup_cons in Hnd as [Hc Hnd].
    pose proof (Hget c) as Hx. unfold get_col in Hx.
    rewrite !assoc_cons, String.eqb_refl in Hx. injection Hx as <-.
    f_equal. apply IH; [assumption | assumption |].
    intros c'. specialize (Hget c'). unfold get_col in *.
    rewrite !assoc_cons in Hget.
    destruct (String.eqb_spec c c') as [Heq | Hne]; [subst c' | assumption].
    assert (Hn1 : assoc c df1 = None).
    { apply assoc_None. now rewrite <- list_elem_of_In. }
    assert (Hn2 : assoc c df2 = None).
    { apply assoc_None. rewrite <- Hcols. now rewrite <- list_elem_of_In. }
    now rewrite Hn1, Hn2.
Qed.

End DFFacts.

(** ** Encoding rules *)

(** Evaluate comparisons of string literals. *)
Ltac eval_eqb :=
  repeat match goal with
    | |- context [String.eqb ?a ?b] =>
        let r := eval vm_compute in (String.eqb a b) in
        lazymatch r with
        | true => change (String.eqb a b) with true
        | false => change (String.eqb a b) with false
        end
    end.

(** Split on every comparison of the string variable [s] with a literal. *)
Ltac str_cases s :=
  repeat match goal with
    | |- context [String.eqb ?lit s] =>
        lazymatch lit with
        | s => fail
        | _ => rewrite (String.eqb_sym lit s)
        end
    end;
  repeat (match goal with
          | |- context [String.eqb s ?lit] =>
              destruct (String.eqb_spec s lit) as [-> | ?]
          end; eval_eqb; cbn -[String.eqb]).

Lemma insurance_plan_code_spec (v : value) : insurance_plan_code v = spec_plan v.
Proof.
  destruct v as [s| |]; try reflexivity.
  unfold insurance_plan_code, spec_plan, dict_get_default, insurance_plan_encoding.
  repeat (case_decide; [subst s; vm_compute; reflexivity |]).
  rewrite !lookup_insert_ne by congruence. now rewrite lookup_empty.
Qed.

(** The loop body does what the rules say. *)
Lemma encode_step_rule (df : dataframe) (key : string) (v : value) :
  encode_step df (key, v)
  = match spec_rule key v with
    | Some (c, x) => DF.set_col c x df
    | None => df
    end.
Proof.
  unfold encode_step, key_and_in. cbn [fst snd].
  rewrite insurance_plan_code_spec.
  unfold spec_rule, onehot_tables, passthrough, assoc. cbn -[String.eqb].
  str_cases key; try reflexivity;
    destruct v as [s| |]; cbn -[String.eqb]; try reflexivity;
    str_cases s; reflexivity.
Qed.

Lemma existsb_eqb_In (c : string) (l : list string) :
  existsb (String.eqb c) l = true <-> In c l.
Proof.
  rewrite existsb_exists. split.
  - intros [x [Hin Heq]]. apply String.eqb_eq in Heq. now subst.
  - intros Hin. exists c. split; [assumption | apply String.eqb_refl].
Qed.

(** Every rule writes one of the eighteen columns, and each column is
    written by the rules of one key only. *)
Lemma spec_rule_target_b (key : string) (v : value) (c : string) (x : value) :
  spec_rule key v = Some (c, x) ->
  existsb (String.eqb c) expected_columns = true
  /\ assoc c column_key = Some key.
Proof.
  unfold spec_rule, onehot_tables, passthrough, onehot, assoc.
  cbn -[String.eqb].
  str_cases key; try discriminate;
    try (intros [= <- <-]; split; reflexivity);
    destruct v as [s| |]; cbn -[String.eqb]; try discriminate;
    str_cases s; try discriminate;
    intros [= <- <-]; split; reflexivity.
Qed.

Lemma spec_rule_target (key : string) (v : value) (c : string) (x : value) :
  spec_rule key v = Some (c, x) ->
  In c expected_columns /\ assoc c column_key = Some key.
Proof.
  intros H. apply spec_rule_target_b in H as [Hin Hkey].
  split; [now apply existsb_eqb_In | assumption].
Qed.

Lemma written_Some (c key : string) (v x : value) :
  written c key v = Some x ->
  In c expected_columns /\ assoc c column_key = Some key.
Proof.
  unfold written. destruct (spec_rule key v) as [[c' x']|] eqn:Hr; [| discriminate].
  destruct (String.eqb_spec c' c) as [-> | _]; [| discriminate].
  intros _. eapply spec_rule_target, Hr.
Qed.

Lemma get_col_step (c : string) (df : dataframe) (key : string) (v : value) :
  DF.get_col c (encode_step df (key, v))
  = match written c key v with
    | Some x => Some x
    | None => DF.get_col c df
    end.
Proof.
  rewrite encode_step_rule. unfold written.
  destruct (spec_rule key v) as [[c' x]|]; [| reflexivity].
  rewrite DFFacts.get_set_col. now destruct (String.eqb c' c).
Qed.

Lemma columns_step (df : dataframe) (item : string * value) :
  DF.columns df = expected_columns ->
  DF.columns (encode_step df item) = expected_columns.
Proof.
  intros Hcols. destruct item as [key v]. rewrite encode_step_rule.
  destruct (spec_rule key v) as [[c x]|] eqn:Hr; [| assumption].
  apply spec_rule_target in Hr as [Hin _].
  rewrite DFFacts.columns_set_col_In; [assumption | now rewrite Hcols].
Qed.

Lemma columns_fold (d : raw_input) (df : dataframe) :
  DF.columns df = expected_columns ->
  DF.columns (fold_left encode_step d df) = expected_columns.
Proof.
  revert df. induction d as [|item d IH]; intros df Hcols; [assumption |].
  cbn [fold_left]. apply IH. now apply columns_step.
Qed.

Lemma columns_encode_items (d : raw_input) :
  DF.columns (encode_items d) = expected_columns.
Proof. apply columns_fold, DFFacts.columns_create. Qed.

(** A column that no item writes keeps its cell. *)
Lemma get_col_fold_untouched (c : string) (d : raw_input) (df : dataframe) :
  (forall k v, In (k, v) d -> written c k v = None) ->
  DF.get_col c (fold_left encode_step d df) = DF.get_col c df.
Proof.
  revert df. induction d as [|[k v] d IH]; intros df Hw; [reflexivity |].
  cbn [fold_left]. rewrite IH.
  - rewrite get_col_step, (Hw k v); [reflexivity | now left].
  - intros k' v' Hin. apply Hw. now right.
Qed.

(** With each key held once, the item under the column's key decides the cell. *)
Lemma get_col_fold (c key : string) (d : raw_input) (df : dataframe) :
  assoc c column_key = Some key -> wf_dict d ->
  DF.get_col c (fold_left encode_step d df)
  = match dict_lookup d key with
    | Some v => match written c key v with
                | Some x => Some x
                | None => DF.get_col c df
                end
    | None => DF.get_col c df
    end.
Proof.
  intros Hkey. unfold wf_dict, dict_lookup. revert df.
  induction d as [|[k v] d IH]; intros df Hnd; [reflexivity |].
  cbn [map fst] in Hnd. apply NoDup_cons in Hnd as [Hk Hnd].
  cbn [fold_left]. rewrite assoc_cons.
  destruct (String.eqb_spec k key) as [-> | Hne].
  - rewrite get_col_fold_untouched; [apply get_col_step |].
    intros k' v' Hin. destruct (written c k' v') as [x|] eqn:Hw; [| reflexivity].
    apply written_Some in Hw as [_ Hw]. rewrite Hkey in Hw. injection Hw as <-.
    exfalso. apply Hk. apply list_elem_of_In.
    change key with (fst (key, v')). now apply in_map.
  - rewrite IH by assumption. rewrite get_col_step.
    destruct (written c k v) as [x|] eqn:Hw; [| reflexivity].
    apply written_Some in Hw as [_ Hw]. congruence.
Qed.

(** The cells of the frame after the loop, read off the raw input. *)
Lemma get_col_encode_items (d : raw_input) (c : string) :
  wf_dict d -> DF.get_col c (encode_items d) = spec_cell d c.
Proof.
  intros Hwf. unfold encode_items, spec_cell.
  destruct (assoc c column_key) as [key|] eqn:Hkey.
  - rewrite (get_col_fold c key) by assumption.
    now rewrite DFFacts.get_col_create.
  - rewrite get_col_fold_untouched; [apply DFFacts.get_col_create |].
    intros k v _. destruct (written c k v) as [x|] eqn:Hw; [| reflexivity].
    apply written_Some in Hw as [_ Hw]. congruence.
Qed.

(** ** Selecting, assigning and dropping columns *)

Module ScalingFacts.
Import DF.

Lemma select_Ok cols df sel :
  select cols df = Ok sel ->
  columns sel = cols
  /\ (forall c, In c cols -> In c (columns df))
  /\ (forall c, In c cols -> get_col c sel = get_col c df).
Proof.
  revert sel. induction cols as [|c cols IH]; intros sel Hsel.
  - injection Hsel as <-. repeat split; intros c [].
  - cbn [select] in Hsel. destruct (get_col c df) as [v|] eqn:Hc; [| discriminate].
    destruct (select cols df) as [rest|e]; [| discriminate].
    cbn [bind] in Hsel. injection Hsel as <-.
    destruct (IH rest eq_refl) as (Hcols & Hin & Hget).
    repeat split.
    + cbn [columns map fst]. f_equal. exact Hcols.
    + intros c' [<- | Hc']; [| now apply Hin].
      apply DFFacts.has_col_In. destruct (has_col c df) eqn:Hhas; [reflexivity |].
      apply DFFacts.has_col_false in Hhas. congruence.
    + intros c' Hc'. unfold get_col at 1. rewrite assoc_cons.
      destruct (String.eqb_spec c c') as [<- | Hne]; [now rewrite Hc |].
      destruct Hc' as [-> | Hc']; [congruence |]. now apply Hget.
Qed.

Lemma columns_assign_all pairs df :
  (forall c, In c (map fst pairs) -> In c (columns df)) ->
  columns (assign_all pairs df) = columns df.
Proof.
  revert df. induction pairs as [|[c x] pairs IH]; intros df Hin; [reflexivity |].
  cbn [assign_all fold_left fst snd]. fold (assign_all pairs (set_col c x df)).
  assert (Hc : columns (set_col c x df) = columns df).
  { apply DFFacts.columns_set_col_In, Hin. now left. }
  rewrite IH; [exact Hc |]. intros c' Hc'. rewrite Hc. apply Hin. now right.
Qed.

Lemma get_col_assign_all_other c pairs df :
  ~ In c (map fst pairs) -> get_col c (assign_all pairs df) = get_col c df.
Proof.
  revert df. induction pairs as [|[c' x] pairs IH]; intros df Hnin; [reflexivity |].
  cbn [assign_all fold_left fst snd]. fold (assign_all pairs (set_col c' x df)).
  cbn [map fst In] in Hnin. rewrite IH by tauto.
  apply DFFacts.get_set_col_ne. tauto.
Qed.

Lemma get_col_assign_all_in c x pairs df :
  NoDup (map fst pairs) -> In (c, x) pairs ->
  get_col c (assign_all pairs df) = Some x.
Proof.
  revert df. induction pairs as [|[c' x'] pairs IH]; intros df Hnd Hin; [destruct Hin |].
  cbn [map fst] in Hnd. apply NoDup_cons in Hnd as [Hc' Hnd].
  cbn [assign_all fold_left fst snd]. fold (assign_all pairs (set_col c' x' df)).
  destruct Hin as [[= -> ->] | Hin]; [| now apply IH].
  rewrite get_col_assign_all_other; [apply DFFacts.get_set_col_eq |].
  now rewrite <- list_elem_of_In.
Qed.

Lemma map_fst_combine (cols : list string) (row : list value) :
  length cols = length row -> map fst (combine cols row) = cols.
Proof.
  revert row. induction cols as [|c cols IH]; intros [|x row] Hlen;
    try discriminate; [reflexivity |].
  cbn [combine map fst]. f_equal. apply IH. now injection Hlen.
Qed.

Lemma In_combine_lookup (cols : list string) (row : list value) i c x :
  cols !! i = Some c -> row !! i = Some x -> In (c, x) (combine cols row).
Proof.
  revert cols row. induction i as [|i IH]; intros [|c' cols] [|x' row] Hc Hx;
    try discriminate.
  - injection Hc as ->. injection Hx as ->. now left.
  - right. now apply (IH cols row).
Qed.

Lemma assign_Ok cols row df df' :
  assign cols row df = Ok df' ->
  length cols = length row /\ df' = assign_all (combine cols row) df.
Proof.
  unfold assign. destruct (Nat.eqb_spec (length cols) (length row)); [| discriminate].
  intros [= <-]. now split.
Qed.

Lemma drop_Ok c df df' :
  drop c df = Ok df' ->
  columns df' = List.filter (not_named c) (columns df)
  /\ ~ In c (columns df')
  /\ (forall c', c' <> c -> get_col c' df' = get_col c' df).
Proof.
  unfold drop. destruct (has_col c df); [| discriminate]. intros [= <-].
  unfold not_named at 1 3 4.
  assert (Hcols : columns (List.filter (fun cv : string * value =>
                     negb (String.eqb (fst cv) c)) df)
                  = List.filter (not_named c) (columns df)).
  { unfold columns. induction df as [|[c0 x] df IH]; [reflexivity |].
    cbn [List.filter map fst]. unfold not_named at 1.
    destruct (String.eqb c0 c); cbn [negb map fst]; [exact IH | now rewrite IH]. }
  split; [exact Hcols |]. split.
  - rewrite Hcols. intros Hin. apply filter_In in Hin as [_ Hin].
    unfold not_named in Hin. now rewrite String.eqb_refl in Hin.
  - clear Hcols. intros c' Hne. unfold get_col.
    induction df as [|[c0 x] df IH]; [reflexivity |].
    cbn [List.filter fst]. destruct (String.eqb_spec c0 c) as [-> | Hne0]; cbn [negb].
    + rewrite assoc_cons, IH. destruct (String.eqb_spec c c'); [congruence | reflexivity].
    + now rewrite !assoc_cons, IH.
Qed.

Lemma filter_placeholder c v df :
  List.filter (not_named c) (columns (set_col c v df))
  = List.filter (not_named c) (columns df).
Proof.
  rewrite DFFacts.columns_set_col. destruct (has_col c df); [reflexivity |].
  rewrite List.filter_app. cbn [List.filter]. unfold not_named at 2.
  rewrite String.eqb_refl. cbn [negb]. apply app_nil_r.
Qed.

Lemma filter_absent c (cols : list string) :
  ~ In c cols -> List.filter (not_named c) cols = cols.
Proof.
  induction cols as [|c' cols IH]; intros Hnin; [reflexivity |].
  cbn [In] in Hnin. cbn [List.filter]. unfold not_named at 1.
  destruct (String.eqb_spec c' c) as [-> | _]; [tauto |]. cbn [negb].
  f_equal. apply IH. tauto.
Qed.

End ScalingFacts.

(** ** The scaling step *)

Lemma bind_Ok {A B : Type} (r : result A) (k : A -> result B) (b : B) :
  bind r k = Ok b -> exists a, r = Ok a /\ k a = Ok b.
Proof. destruct r as [a|e]; [intros H; now exists a | discriminate]. Qed.

Lemma scale_with_Ok (bundle : scaler_bundle) (df df' : dataframe) :
  scale_with bundle df = Ok df' ->
  exists sel scaled,
    let placed := DF.set_col "income_level" (VInt 0) df in
    DF.select (cols_to_scale bundle) placed = Ok sel
    /\ transform bundle sel = Ok scaled
    /\ length (cols_to_scale bundle) = length scaled
    /\ DF.drop "income_level"
         (DF.assign_all (combine (cols_to_scale bundle) scaled) placed)
       = Ok df'.
Proof.
  unfold scale_with. intros H.
  apply bind_Ok in H as (sel & Hsel & H).
  apply bind_Ok in H as (scaled & Hscaled & H).
  apply bind_Ok in H as (df2 & Hassign & H).
  apply ScalingFacts.assign_Ok in Hassign as [Hlen ->].
  exists sel, scaled. cbn zeta. auto.
Qed.

(** What a successful scaling step leaves behind. *)
Lemma scale_with_frame (bundle : scaler_bundle) (df df' : dataframe) :
  scale_with bundle df = Ok df' ->
  exists sel scaled,
    let cols := cols_to_scale bundle in
    let placed := DF.set_col "income_level" (VInt 0) df in
    DF.select cols placed = Ok sel
    /\ transform bundle sel = Ok scaled
    /\ DF.get_col "income_level" placed = Some (VInt 0)
    /\ (In "income_level" cols -> DF.get_col "income_level" sel = Some (VInt 0))
    /\ ~ In "income_level" (DF.columns df')
    /\ DF.columns df'
       = List.filter (DF.not_named "income_level") (DF.columns df)
    /\ (forall c, ~ In c cols -> c <> "income_level" ->
                  DF.get_col c df' = DF.get_col c df)
    /\ (NoDup cols -> forall i c x,
          cols !! i = Some c -> scaled !! i = Some x -> c <> "income_level" ->
          DF.get_col c df' = Some x).
Proof.
  intros H. apply scale_with_Ok in H as (sel & scaled & Hsel & Htr & Hlen & Hdrop).
  cbn zeta in *. exists sel, scaled. cbn zeta.
  apply ScalingFacts.drop_Ok in Hdrop as (Hcols & Hnin & Hget).
  pose proof (ScalingFacts.select_Ok _ _ _ Hsel) as (_ & Hin & Hgsel).
  pose proof (ScalingFacts.map_fst_combine _ _ Hlen) as Hfst.
  repeat split; try assumption.
  - apply DFFacts.get_set_col_eq.
  - intros Hil. rewrite (Hgsel _ Hil). apply DFFacts.get_set_col_eq.
  - rewrite Hcols, ScalingFacts.columns_assign_all.
    + apply ScalingFacts.filter_placeholder.
    + now rewrite Hfst.
  - intros c Hc Hne. rewrite (Hget c Hne).
    rewrite ScalingFacts.get_col_assign_all_other by now rewrite Hfst.
    now apply DFFacts.get_set_col_ne.
  - intros Hnd i c x Hc Hx Hne. rewrite (Hget c Hne).
    apply ScalingFacts.get_col_assign_all_in.
    + now rewrite Hfst.
    + eapply ScalingFacts.In_combine_lookup; eassumption.
Qed.

Lemma handle_scaling_Ok (sy sr : scaler_bundle) (age : value) (df df' : dataframe) :
  handle_scaling sy sr age df = Ok df' ->
  exists young : bool,
    py_le age 25 = Ok young /\ scale_with (if young then sy else sr) df = Ok df'.
Proof.
  unfold handle_scaling. intros H. apply bind_Ok in H as (young & Hy & H).
  now exists young.
Qed.

(** C8: a successful scaling step transforms the selected bundle's columns
    of the frame that holds the placeholder at 0, writes the results into
    exactly those columns, keeps every other cell and the column order,
    and returns a frame without the placeholder. *)
Theorem handle_scaling_frame (sy sr : scaler_bundle) (age : value)
    (df df' : dataframe) :
  handle_scaling sy sr age df = Ok df' ->
  exists (young : bool) sel scaled,
    let bundle := if young then sy else sr in
    let cols := cols_to_scale bundle in
    let placed := DF.set_col "income_level" (VInt 0) df in
    py_le age 25 = Ok young
    /\ DF.select cols placed = Ok sel
    /\ transform bundle sel = Ok scaled
    /\ DF.get_col "income_level" placed = Some (VInt 0)
    /\ (In "income_level" cols -> DF.get_col "income_level" sel = Some (VInt 0))
    /\ ~ In "income_level" (DF.columns df')
    /\ DF.columns df'
       = List.filter (DF.not_named "income_level") (DF.columns df)
    /\ (~ In "income_level" (DF.columns df) -> DF.columns df' = DF.columns df)
    /\ (forall c, ~ In c cols -> c <> "income_level" ->
                  DF.get_col c df' = DF.get_col c df)
    /\ (NoDup cols -> forall i c x,
          cols !! i = Some c -> scaled !! i = Some x -> c <> "income_level" ->
          DF.get_col c df' = Some x).
Proof.
  intros H. apply handle_scaling_Ok in H as (young & Hy & H).
  apply scale_with_frame in H
    as (sel & scaled & Hsel & Htr & Hp & Hps & Hnin & Hcols & Hother & Hscaled).
  exists young, sel, scaled. cbn zeta in *.
  repeat split; try assumption.
  intros Habs. rewrite Hcols. now apply ScalingFacts.filter_absent.
Qed.

(** ** The feature row *)

Lemma feature_row_Ok (d : raw_input) (s : string) :
  dict_lookup d "Medical History" = Some (VStr s) ->
  feature_row d
  = Ok (DF.set_col "normalized_risk_score" (VFloat (calculate_normalized_risk s))
          (encode_items d)).
Proof. intros H. unfold feature_row, dict_item. now rewrite H. Qed.

Lemma feature_row_inv (d : raw_input) (df : dataframe) :
  feature_row d = Ok df ->
  exists s, dict_lookup d "Medical History" = Some (VStr s)
            /\ df = DF.set_col "normalized_risk_score"
                      (VFloat (calculate_normalized_risk s)) (encode_items d).
Proof.
  unfold feature_row, dict_item. intros H.
  destruct (dict_lookup d "Medical History") as [[s| |]|]; try discriminate.
  exists s. split; [reflexivity |]. cbn in H. now injection H.
Qed.

Lemma feature_row_Ok_columns (d : raw_input) (df : dataframe) :
  feature_row d = Ok df -> DF.columns df = expected_columns.
Proof.
  intros H. apply feature_row_inv in H as (s & _ & ->).
  rewrite DFFacts.columns_set_col_In; [apply columns_encode_items |].
  rewrite columns_encode_items. apply existsb_eqb_In. reflexivity.
Qed.

Lemma feature_row_get_col (d : raw_input) (df : dataframe) (c : string) :
  feature_row d = Ok df -> c <> "normalized_risk_score" ->
  DF.get_col c df = DF.get_col c (encode_items d).
Proof.
  intros H Hne. apply feature_row_inv in H as (s & _ & ->).
  apply DFFacts.get_set_col_ne. congruence.
Qed.

Lemma placeholder_not_expected : ~ In "income_level" expected_columns.
Proof.
  intros H. apply existsb_eqb_In in H. vm_compute in H. discriminate.
Qed.

Lemma preprocess_input_Ok (sy sr : scaler_bundle) (d : raw_input) (df' : dataframe) :
  preprocess_input sy sr d = Ok df' ->
  exists df age, feature_row d = Ok df
                 /\ dict_lookup d "Age" = Some age
                 /\ handle_scaling sy sr age df = Ok df'.
Proof.
  unfold preprocess_input. intros H.
  apply bind_Ok in H as (df & Hdf & H).
  apply bind_Ok in H as (age & Hage & H).
  exists df, age. repeat split; try assumption.
  unfold dict_item in Hage. destruct (dict_lookup d "Age"); [congruence | discriminate].
Qed.

(** C2: the frame after the loop, the Feature Row handed to the scaling
    step and the row returned after scaling all carry the same eighteen
    columns in the same order. *)
Theorem feature_row_columns (sy sr : scaler_bundle) (d : raw_input) :
  let cols :=
    [ "age"; "number_of_dependants"; "income_lakhs"; "insurance_plan";
      "genetical_risk"; "normalized_risk_score"; "gender_Male";
      "region_Northwest"; "region_Southeast"; "region_Southwest";
      "marital_status_Unmarried"; "bmi_category_Obesity";
      "bmi_category_Overweight"; "bmi_category_Underweight";
      "smoking_status_Occasional"; "smoking_status_Regular";
      "employment_status_Salaried"; "employment_status_Self-Employed" ] in
  length cols = 18%nat
  /\ DF.columns (encode_items d) = cols
  /\ (forall df, feature_row d = Ok df -> DF.columns df = cols)
  /\ (forall df, preprocess_input sy sr d = Ok df -> DF.columns df = cols).
Proof.
  cbn zeta. fold expected_columns. repeat split.
  - apply columns_encode_items.
  - intros df. apply feature_row_Ok_columns.
  - intros df' H.
    apply preprocess_input_Ok in H as (df & age & Hrow & _ & Hscale).
    apply handle_scaling_Ok in Hscale as (young & _ & Hscale).
    apply scale_with_frame in Hscale
      as (sel & scaled & _ & _ & _ & _ & _ & Hcols & _).
    apply feature_row_Ok_columns in Hrow. rewrite Hcols, Hrow.
    apply ScalingFacts.filter_absent, placeholder_not_expected.
Qed.

Lemma sample_wf : wf_dict sample.
Proof. unfold wf_dict. apply (bool_decide_unpack _). vm_compute. reflexivity. Qed.

Lemma sample_preprocess :
  preprocess_input demo_scaler demo_scaler sample = Ok sample_scaled.
Proof. vm_compute. reflexivity. Qed.

Lemma sample_predict :
  predict demo_scaler demo_scaler demo_model demo_model sample = Ok 12345.
Proof. vm_compute. reflexivity. Qed.

Lemma feature_row_columns_witness :
  preprocess_input demo_scaler demo_scaler sample = Ok sample_scaled
  /\ DF.columns sample_scaled = expected_columns.
Proof.
  split; [exact sample_preprocess |].
  exact (proj2 (proj2 (proj2 (feature_row_columns demo_scaler demo_scaler sample)))
           sample_scaled sample_preprocess).
Defined.

Lemma sample_handle_scaling :
  handle_scaling demo_scaler demo_scaler (VInt 22) sample_row = Ok sample_scaled.
Proof. vm_compute. reflexivity. Qed.

Lemma handle_scaling_frame_witness :
  handle_scaling demo_scaler demo_scaler (VInt 22) sample_row = Ok sample_scaled
  /\ DF.columns sample_scaled = DF.columns sample_row.
Proof.
  split; [exact sample_handle_scaling |].
  destruct (handle_scaling_frame demo_scaler demo_scaler (VInt 22)
              sample_row sample_scaled sample_handle_scaling)
    as (young & sel & scaled & _ & _ & _ & _ & _ & _ & _ & Hsame & _).
  apply Hsame. intros Hin. apply existsb_eqb_In in Hin. vm_compute in Hin.
  discriminate.
Defined.

(** ** Age brackets *)

Lemma py_le_number (v : value) (q : Q) (n : Z) :
  number v = Some q -> py_le v n = Ok (Qle_bool q (inject_Z n)).
Proof.
  destruct v as [s|z|x]; cbn; intros [= <-]; [| reflexivity].
  unfold Qle_bool, inject_Z. cbn. now rewrite !Z.mul_1_r.
Qed.

Lemma bind_bind {A B C : Type} (r : result A) (f : A -> result B) (g : B -> result C) :
  bind (bind r f) g = bind r (fun a => bind (f a) g).
Proof. now destruct r. Qed.

Lemma predict_bracket (sy sr : scaler_bundle) (my mr : model) (d : raw_input)
    (age : value) (young : bool) :
  dict_lookup d "Age" = Some age -> py_le age 25 = Ok young ->
  (forall df, handle_scaling sy sr age df = scale_with (if young then sy else sr) df)
  /\ predict sy sr my mr d
     = (do df <- feature_row d;
        do scaled <- scale_with (if young then sy else sr) df;
        predict_with (if young then my else mr) scaled).
Proof.
  intros Hage Hle. split.
  - intros df. unfold handle_scaling. now rewrite Hle.
  - unfold predict, preprocess_input, handle_scaling, dict_item.
    rewrite Hage. cbn [bind]. rewrite Hle. cbn [bind].
    now rewrite bind_bind.
Qed.

(** C3: for a numeric age at most 25 the scaling step uses the young
    bundle and the prediction the young model; above 25 both use the rest
    ones.  The two choices never disagree. *)
Theorem age_bracket_dispatch (sy sr : scaler_bundle) (my mr : model)
    (d : raw_input) (age : value) (q : Q) :
  dict_lookup d "Age" = Some age -> number age = Some q ->
  ((q <= 25)%Q ->
     (forall df, handle_scaling sy sr age df = scale_with sy df)
     /\ predict sy sr my mr d
        = (do df <- feature_row d;
           do scaled <- scale_with sy df;
           predict_with my scaled))
  /\ ((25 < q)%Q ->
     (forall df, handle_scaling sy sr age df = scale_with sr df)
     /\ predict sy sr my mr d
        = (do df <- feature_row d;
           do scaled <- scale_with sr df;
           predict_with mr scaled)).
Proof.
  intros Hage Hnum. pose proof (py_le_number age q 25 Hnum) as Hle.
  split; intros Hq.
  - apply (predict_bracket sy sr my mr d age true Hage).
    rewrite Hle. f_equal. now apply Qle_bool_iff.
  - apply (predict_bracket sy sr my mr d age false Hage).
    rewrite Hle. f_equal. destruct (Qle_bool q (inject_Z 25)) eqn:Hb; [| reflexivity].
    apply Qle_bool_iff in Hb. exfalso. now apply (Qlt_not_le _ _ Hq).
Qed.

Lemma age_bracket_dispatch_witness :
  predict demo_scaler demo_scaler demo_model demo_model (sample_at 25)
  = (do df <- feature_row (sample_at 25);
     do scaled <- scale_with demo_scaler df;
     predict_with demo_model scaled)
  /\ predict demo_scaler demo_scaler demo_model demo_model (sample_at 26)
  = (do df <- feature_row (sample_at 26);
     do scaled <- scale_with demo_scaler df;
     predict_with demo_model scaled).
Proof.
  split.
  - refine (proj2 (proj1 (age_bracket_dispatch demo_scaler demo_scaler
                            demo_model demo_model (sample_at 25) (VInt 25)
                            (inject_Z 25) eq_refl eq_refl) _)).
    vm_compute. discriminate.
  - refine (proj2 (proj2 (age_bracket_dispatch demo_scaler demo_scaler
                            demo_model demo_model (sample_at 26) (VInt 26)
                            (inject_Z 26) eq_refl eq_refl) _)).
    vm_compute. reflexivity.
Defined.

(** ** Missing keys *)

(** C5: without "Medical History" the call fails with the key error for
    "Medical History"; with a string under "Medical History" and without
    "Age" it fails with the key error for "Age".  No row and no
    prediction is produced in either case. *)
Theorem missing_key_error (sy sr : scaler_bundle) (my mr : model) (d : raw_input) :
  (dict_lookup d "Medical History" = None ->
     preprocess_input sy sr d = Raise (KeyError "Medical History")
     /\ predict sy sr my mr d = Raise (KeyError "Medical History"))
  /\ (forall s, dict_lookup d "Medical History" = Some (VStr s) ->
      dict_lookup d "Age" = None ->
     preprocess_input sy sr d = Raise (KeyError "Age")
     /\ predict sy sr my mr d = Raise (KeyError "Age")).
Proof.
  split.
  - intros Hmh.
    assert (H : preprocess_input sy sr d = Raise (KeyError "Medical History")).
    { unfold preprocess_input, feature_row, dict_item. now rewrite Hmh. }
    split; [exact H |]. unfold predict. now rewrite H.
  - intros s Hmh Hage.
    assert (H : preprocess_input sy sr d = Raise (KeyError "Age")).
    { unfold preprocess_input. rewrite (feature_row_Ok d s Hmh).
      unfold dict_item. now rewrite Hage. }
    split; [exact H |]. unfold predict. now rewrite H.
Qed.

Lemma missing_key_error_witness :
  predict demo_scaler demo_scaler demo_model demo_model [("Age", VInt 30)]
  = Raise (KeyError "Medical History")
  /\ predict demo_scaler demo_scaler demo_model demo_model
       [("Medical History", VStr "thyroid")]
  = Raise (KeyError "Age").
Proof.
  split.
  - exact (proj2 (proj1 (missing_key_error demo_scaler demo_scaler demo_model
                           demo_model [("Age", VInt 30)]) eq_refl)).
  - exact (proj2 (proj2 (missing_key_error demo_scaler demo_scaler demo_model
                           demo_model [("Medical History", VStr "thyroid")])
                    "thyroid" eq_refl eq_refl)).
Defined.

(** ** Cells of the feature row *)

Lemma categorical_rule (key : string) (v : value) :
  In key categorical_keys ->
  (forall s, existsb (String.eqb s) (accepted key) = true -> v <> VStr s) ->
  spec_rule key v = None.
Proof.
  intros Hkey Hv. apply existsb_eqb_In in Hkey. revert Hkey Hv.
  unfold categorical_keys. cbn -[String.eqb]. str_cases key; try discriminate.
  all: intros _ Hv; destruct v as [s| |]; try reflexivity.
  all: unfold spec_rule, onehot_tables, onehot, assoc; cbn -[String.eqb].
  all: eval_eqb; cbn -[String.eqb].
  all: str_cases s; try reflexivity.
  all: exfalso; eapply Hv; [| reflexivity]; reflexivity.
Qed.

Lemma unrecognized_rule (key : string) (v : value) :
  unrecognized key v -> spec_rule key v = None.
Proof.
  intros [[Hkey Hv] | Hkey].
  - apply categorical_rule; [assumption |].
    intros s Hs. apply Hv. now apply existsb_eqb_In.
  - unfold spec_rule, onehot_tables, passthrough, assoc. cbn -[String.eqb].
    str_cases key; try reflexivity;
      exfalso; apply Hkey; vm_compute; tauto.
Qed.

Lemma onehot_columns_key (key c : string) :
  In c (onehot_columns key) ->
  assoc c column_key = Some key
  /\ existsb (String.eqb c) expected_columns = true.
Proof.
  unfold onehot_columns, onehot_tables, assoc. cbn -[String.eqb].
  str_cases key; cbn; intros Hin;
    repeat (destruct Hin as [<- | Hin]; [split; reflexivity |]); destruct Hin.
Qed.

(** C6: a pair the encoder has no rule for leaves every frame as it is,
    so the loop is total and the one-hot columns of that attribute stay 0,
    in the frame after the loop and in the Feature Row. *)
Theorem unrecognized_value_ignored (d : raw_input) (key : string) (v : value) :
  wf_dict d -> dict_lookup d key = Some v -> unrecognized key v ->
  (forall df, encode_step df (key, v) = df)
  /\ (forall c, In c (onehot_columns key) ->
                DF.get_col c (encode_items d) = Some (VInt 0))
  /\ (forall s, dict_lookup d "Medical History" = Some (VStr s) ->
      exists df, feature_row d = Ok df
                 /\ forall c, In c (onehot_columns key) ->
                              DF.get_col c df = Some (VInt 0)).
Proof.
  intros Hwf Hlook Hun. pose proof (unrecognized_rule key v Hun) as Hrule.
  assert (Hcells : forall c, In c (onehot_columns key) ->
                             DF.get_col c (encode_items d) = Some (VInt 0)).
  { intros c Hc. apply onehot_columns_key in Hc as [Hkey Hexp].
    rewrite get_col_encode_items by assumption.
    unfold spec_cell, written. now rewrite Hkey, Hlook, Hrule, Hexp. }
  split; [| split].
  - intros df. now rewrite encode_step_rule, Hrule.
  - exact Hcells.
  - intros s Hmh. eexists. split; [apply (feature_row_Ok d s Hmh) |].
    intros c Hc. rewrite DFFacts.get_set_col_ne; [now apply Hcells |].
    intros <-. apply onehot_columns_key in Hc as [Hkey _]. discriminate Hkey.
Qed.

Lemma atlantis_wf : wf_dict atlantis.
Proof. unfold wf_dict. apply (bool_decide_unpack _). vm_compute. reflexivity. Qed.

Lemma atlantis_unrecognized : unrecognized "Region" (VStr "Atlantis").
Proof.
  left. split; [vm_compute; tauto |].
  intros s Hs [= <-]. vm_compute in Hs.
  repeat (destruct Hs as [Hs | Hs]; [discriminate Hs |]). destruct Hs.
Qed.

Lemma unrecognized_value_ignored_witness :
  DF.get_col "region_Northwest" (encode_items atlantis) = Some (VInt 0)
  /\ DF.get_col "region_Southeast" (encode_items atlantis) = Some (VInt 0)
  /\ DF.get_col "region_Southwest" (encode_items atlantis) = Some (VInt 0).
Proof.
  pose proof (proj1 (proj2 (unrecognized_value_ignored atlantis "Region"
                              (VStr "Atlantis") atlantis_wf eq_refl
                              atlantis_unrecognized))) as H.
  repeat split; apply H; vm_compute; tauto.
Defined.

(** ** Insurance plan *)

Lemma insurance_plan_cell (d : raw_input) (v : value) :
  wf_dict d -> dict_lookup d "Insurance Plan" = Some v ->
  DF.get_col "insurance_plan" (encode_items d) = Some (VInt (spec_plan v)).
Proof.
  intros Hwf Hlook. rewrite get_col_encode_items by assumption.
  unfold spec_cell. change (assoc "insurance_plan" column_key)
    with (Some "Insurance Plan"). cbn iota beta. now rewrite Hlook.
Qed.

(** C7: when the raw input holds "Insurance Plan", the insurance_plan cell
    of the Feature Row is 1 for "Bronze", 2 for "Silver", 3 for "Gold" and
    1 for every other value. *)
Theorem insurance_plan_field (d : raw_input) (v : value) :
  wf_dict d -> dict_lookup d "Insurance Plan" = Some v ->
  let code :=
    match v with
    | VStr s =>
        if String.eqb s "Bronze" then 1
        else if String.eqb s "Silver" then 2
        else if String.eqb s "Gold" then 3
        else 1
    | _ => 1
    end in
  DF.get_col "insurance_plan" (encode_items d) = Some (VInt code)
  /\ (forall df, feature_row d = Ok df ->
                 DF.get_col "insurance_plan" df = Some (VInt code)).
Proof.
  intros Hwf Hlook code.
  assert (Hcode : code = spec_plan v).
  { subst code. unfold spec_plan. destruct v as [s| |]; try reflexivity.
    str_cases s; repeat case_decide; congruence. }
  rewrite Hcode. split.
  - now apply insurance_plan_cell.
  - intros df Hrow. rewrite (feature_row_get_col d df) by (assumption || discriminate).
    now apply insurance_plan_cell.
Qed.

Lemma insurance_plan_field_witness :
  DF.get_col "insurance_plan" (encode_items sample) = Some (VInt 3).
Proof.
  exact (proj1 (insurance_plan_field sample (VStr "Gold") sample_wf eq_refl)).
Defined.

(** C10: when the raw input has no "Insurance Plan" key, the
    insurance_plan cell keeps the 0 the frame was created with. *)
Theorem insurance_plan_absent (d : raw_input) :
  dict_lookup d "Insurance Plan" = None ->
  DF.get_col "insurance_plan" (encode_items d) = Some (VInt 0)
  /\ (forall df, feature_row d = Ok df ->
                 DF.get_col "insurance_plan" df = Some (VInt 0)).
Proof.
  intros Hlook.
  assert (H : DF.get_col "insurance_plan" (encode_items d) = Some (VInt 0)).
  { unfold encode_items. rewrite get_col_fold_untouched; [reflexivity |].
    intros k v Hin. destruct (written "insurance_plan" k v) as [x|] eqn:Hw;
      [| reflexivity].
    apply written_Some in Hw as [_ Hw]. injection Hw as <-.
    exfalso. apply assoc_None in Hlook. apply Hlook.
    change "Insurance Plan" with (fst ("Insurance Plan", v)). now apply in_map. }
  split; [exact H |].
  intros df Hrow. now rewrite (feature_row_get_col d df) by (assumption || discriminate).
Qed.

Lemma insurance_plan_absent_witness :
  DF.get_col "insurance_plan" (encode_items atlantis) = Some (VInt 0).
Proof. exact (proj1 (insurance_plan_absent atlantis eq_refl)). Defined.

(** ** Determinism *)

Lemma expected_columns_NoDup : NoDup expected_columns.
Proof. apply (bool_decide_unpack _). vm_compute. reflexivity. Qed.

Lemma spec_cell_Permutation (d1 d2 : raw_input) (c : string) :
  wf_dict d1 -> Permutation d1 d2 -> spec_cell d1 c = spec_cell d2 c.
Proof.
  intros Hwf Hp. unfold spec_cell, dict_lookup.
  destruct (assoc c column_key) as [key|]; [| reflexivity].
  now rewrite (assoc_Permutation key d1 d2 Hwf Hp).
Qed.

(** C9: the encoding is a function of the mapping alone.  Two runs on the
    same mapping, whatever order its items are iterated in, give the same
    frame after the loop, the same Feature Row (or the same error), and
    the same scaled row (or the same error). *)
Theorem encoding_deterministic (sy sr : scaler_bundle) (d1 d2 : raw_input) :
  wf_dict d1 -> Permutation d1 d2 ->
  encode_items d1 = encode_items d2
  /\ feature_row d1 = feature_row d2
  /\ preprocess_input sy sr d1 = preprocess_input sy sr d2.
Proof.
  intros Hwf Hp.
  assert (Hwf2 : wf_dict d2).
  { unfold wf_dict in *.
    assert (Hpm : Permutation (map fst d1) (map fst d2)) by now apply Permutation_map.
    now rewrite <- Hpm. }
  assert (Hitems : encode_items d1 = encode_items d2).
  { apply DFFacts.dataframe_ext.
    - rewrite columns_encode_items. apply expected_columns_NoDup.
    - now rewrite !columns_encode_items.
    - intros c. rewrite !get_col_encode_items by assumption.
      now apply spec_cell_Permutation. }
  assert (Hrow : feature_row d1 = feature_row d2).
  { unfold feature_row, dict_item, dict_lookup.
    now rewrite Hitems, (assoc_Permutation "Medical History" d1 d2 Hwf Hp). }
  repeat split; [exact Hitems | exact Hrow |].
  unfold preprocess_input, dict_item, dict_lookup.
  now rewrite Hrow, (assoc_Permutation "Age" d1 d2 Hwf Hp).
Qed.

Lemma encoding_deterministic_witness :
  feature_row sample = feature_row (rev sample)
  /\ feature_row sample = feature_row sample.
Proof.
  split.
  - exact (proj1 (proj2 (encoding_deterministic demo_scaler demo_scaler sample
                           (rev sample) sample_wf (Permutation_rev sample)))).
  - exact (proj1 (proj2 (encoding_deterministic demo_scaler demo_scaler sample
                           sample sample_wf (Permutation_refl sample)))).
Defined.

(** * Further properties *)

(** ** Risk score on arbitrary histories *)

Lemma lower_char_amp (c : ascii) :
  Ascii.eqb (PyStr.lower_char c) "&" = Ascii.eqb c "&".
Proof.
  destruct c as [b0 b1 b2 b3 b4 b5 b6 b7].
  destruct b0, b1, b2, b3, b4, b5, b6, b7; reflexivity.
Qed.

Lemma has_char_lower (p : string) :
  PyStr.has_char "&" (PyStr.lower p) = PyStr.has_char "&" p.
Proof.
  induction p as [|c p IH]; [reflexivity |].
  cbn [PyStr.lower PyStr.has_char]. now rewrite lower_char_amp, IH.
Qed.

Lemma total_join (parts : list string) :
  amp_free parts ->
  total_risk_score (history parts) = spec_total (map PyStr.lower parts).
Proof.
  intros Hfree. rewrite total_risk_score_spec. unfold history.
  rewrite PyStrFacts.lower_join.
  destruct parts as [|p parts]; [reflexivity |].
  rewrite PyStrFacts.split_join; [reflexivity | done |].
  apply Forall_map. eapply Forall_impl; [exact Hfree |].
  intros q Hq. cbn beta. now rewrite has_char_lower.
Qed.

Lemma risk_join (parts : list string) :
  amp_free parts ->
  calculate_normalized_risk (history parts)
  = ratio (spec_total (map PyStr.lower parts)).
Proof. intros H. now rewrite calculate_normalized_risk_ratio, total_join. Qed.

Lemma ratio_inj (a b : Z) : ratio a = ratio b <-> a = b.
Proof.
  split; [| now intros ->]. intros H.
  assert (H1 : (ratio a <= ratio b)%Qc) by (rewrite H; apply Qcle_refl).
  assert (H2 : (ratio b <= ratio a)%Qc) by (rewrite H; apply Qcle_refl).
  apply (proj1 (ratio_le a b)) in H1. apply (proj1 (ratio_le b a)) in H2. lia.
Qed.


Lemma spec_weight_zero (part : string) :
  spec_weight part = 0 <-> ~ In part weighted_names.
Proof.
  unfold weighted_names. cbn [In]. split.
  - intros Hw [<- | [<- | [<- | [<- | []]]]]; vm_compute in Hw; discriminate.
  - intros Hn. unfold spec_weight.
    repeat case_decide; subst; try reflexivity; exfalso; apply Hn; tauto.
Qed.

Lemma spec_total_zero (parts : list string) :
  spec_total parts = 0 <-> Forall (fun p => ~ In p weighted_names) parts.
Proof.
  induction parts as [|p parts IH].
  - split; [constructor | reflexivity].
  - rewrite spec_total_cons, Forall_cons, <- IH, <- spec_weight_zero.
    pose proof (spec_weight_range p). pose proof (spec_total_nonneg parts). lia.
Qed.

Lemma spec_total_Permutation (l1 l2 : list string) :
  Permutation l1 l2 -> spec_total l1 = spec_total l2.
Proof.
  induction 1 as [|x l l' _ IH|x y l|l l' l'' _ IH1 _ IH2].
  - reflexivity.
  - now rewrite !spec_total_cons, IH.
  - rewrite !spec_total_cons. lia.
  - congruence.
Qed.

(** X1: for every history string the score is never negative, and it is 0
    exactly when none of the lowercased parts is one of the four names
    with a positive weight. *)
Theorem risk_zero_iff (s : string) :
  (0 <= calculate_normalized_risk s)%Qc
  /\ (calculate_normalized_risk s = 0%Qc
      <-> Forall (fun p => ~ In p weighted_names)
            (PyStr.split " & " (PyStr.lower s))).
Proof.
  rewrite calculate_normalized_risk_ratio, total_risk_score_spec. split.
  - rewrite <- ratio_0. apply ratio_le, spec_total_nonneg.
  - rewrite <- ratio_0, ratio_inj. apply spec_total_zero.
Qed.

(** X2: the score does not depend on the order in which the conditions
    are listed. *)
Theorem risk_order_independent (parts1 parts2 : list string) :
  amp_free parts1 -> Permutation parts1 parts2 ->
  calculate_normalized_risk (history parts1)
  = calculate_normalized_risk (history parts2).
Proof.
  intros Hfree Hperm.
  assert (Hfree2 : amp_free parts2) by (unfold amp_free in *; now rewrite <- Hperm).
  rewrite !risk_join by assumption. f_equal.
  apply spec_total_Permutation. now apply Permutation_map.
Qed.

Lemma risk_order_independent_witness :
  calculate_normalized_risk "Thyroid & diabetes"
  = calculate_normalized_risk "diabetes & Thyroid".
Proof.
  refine (risk_order_independent ["Thyroid"; "diabetes"] ["diabetes"; "Thyroid"] _ _).
  - repeat constructor.
  - apply perm_swap.
Defined.

Lemma spec_total_filter (parts : list string) :
  spec_total (map PyStr.lower (List.filter weighted parts))
  = spec_total (map PyStr.lower parts).
Proof.
  induction parts as [|p parts IH]; [reflexivity |].
  cbn [List.filter map]. destruct (weighted p) eqn:Hw.
  - cbn [map]. now rewrite !spec_total_cons, IH.
  - rewrite spec_total_cons, IH.
    assert (H0 : spec_weight (PyStr.lower p) = 0); [| lia].
    apply spec_weight_zero. intros Hin. apply existsb_eqb_In in Hin.
    unfold weighted in Hw. congruence.
Qed.

Lemma amp_free_filter (f : string -> bool) (parts : list string) :
  amp_free parts -> amp_free (List.filter f parts).
Proof.
  unfold amp_free. rewrite !List.Forall_forall. intros H p Hp.
  apply filter_In in Hp as [Hp _]. now apply H.
Qed.

(** X3: parts that are not one of the four weighted names, in any letter
    case, can be struck from the history without changing the score. *)
Theorem risk_ignores_other_parts (parts : list string) :
  amp_free parts ->
  calculate_normalized_risk (history (List.filter weighted parts))
  = calculate_normalized_risk (history parts).
Proof.
  intros Hfree. rewrite !risk_join by (try apply amp_free_filter; assumption).
  now rewrite spec_total_filter.
Qed.

Lemma risk_ignores_other_parts_witness :
  calculate_normalized_risk "Diabetes"
  = calculate_normalized_risk "asthma & Diabetes & no disease".
Proof.
  refine (risk_ignores_other_parts ["asthma"; "Diabetes"; "no disease"] _).
  repeat constructor.
Defined.



(** X5: splitting loses nothing: the parts the score is summed over are
    never an empty list, and joined by the separator they give back the
    lowercased history. *)
Theorem history_parts_rejoin (s : string) :
  PyStr.split " & " (PyStr.lower s) <> []
  /\ PyStr.join " & " (PyStr.split " & " (PyStr.lower s)) = PyStr.lower s.
Proof.
  split; [apply PyStrFacts.split_from_nonempty | apply PyStrFacts.join_split].
Qed.

(** ** Cells written by the loop *)

Lemma spec_rule_onehot (key : string) (table : list (string * string)) (v : value) :
  assoc key onehot_tables = Some table -> spec_rule key v = onehot v table.
Proof. intros H. unfold spec_rule. now rewrite H. Qed.

Lemma feature_row_cell (d : raw_input) (df : dataframe) (c key : string) :
  feature_row d = Ok df -> assoc c column_key = Some key ->
  DF.get_col c df = DF.get_col c (encode_items d).
Proof.
  intros Hrow Hkey. apply (feature_row_get_col d df c Hrow).
  intros ->. discriminate Hkey.
Qed.

(** X6: an accepted value of a categorical attribute switches on its own
    column and leaves the attribute's other one-hot columns at 0, in the
    frame after the loop and in the Feature Row. *)
Theorem onehot_accepted (d : raw_input) (key : string)
    (table : list (string * string)) (s c : string) :
  wf_dict d -> assoc key onehot_tables = Some table ->
  dict_lookup d key = Some (VStr s) -> assoc s table = Some c ->
  (DF.get_col c (encode_items d) = Some (VInt 1)
   /\ forall c', In c' (map snd table) -> c' <> c ->
                 DF.get_col c' (encode_items d) = Some (VInt 0))
  /\ forall df, feature_row d = Ok df ->
       DF.get_col c df = Some (VInt 1)
       /\ forall c', In c' (map snd table) -> c' <> c ->
                     DF.get_col c' df = Some (VInt 0).
Proof.
  intros Hwf Htable Hlook Hs.
  assert (Hrule : spec_rule key (VStr s) = Some (c, VInt 1)).
  { rewrite (spec_rule_onehot key table) by assumption. cbn. now rewrite Hs. }
  pose proof (spec_rule_target _ _ _ _ Hrule) as [_ Hkey].
  assert (Hon : DF.get_col c (encode_items d) = Some (VInt 1)).
  { rewrite get_col_encode_items by assumption. unfold spec_cell, written.
    now rewrite Hkey, Hlook, Hrule, String.eqb_refl. }
  assert (Hcols : forall c', In c' (map snd table) ->
                             assoc c' column_key = Some key
                             /\ existsb (String.eqb c') expected_columns = true).
  { intros c' Hc'. apply onehot_columns_key. unfold onehot_columns.
    now rewrite Htable. }
  assert (Hoff : forall c', In c' (map snd table) -> c' <> c ->
                            DF.get_col c' (encode_items d) = Some (VInt 0)).
  { intros c' Hc' Hne. destruct (Hcols c' Hc') as [Hkey' Hexp].
    rewrite get_col_encode_items by assumption. unfold spec_cell, written.
    rewrite Hkey', Hlook, Hrule, Hexp.
    destruct (String.eqb_spec c c'); [congruence | reflexivity]. }
  split; [now split |]. intros df Hrow. split.
  - now rewrite (feature_row_cell d df c key).
  - intros c' Hc' Hne. destruct (Hcols c' Hc') as [Hkey' _].
    rewrite (feature_row_cell d df c' key) by assumption. now apply Hoff.
Qed.

Lemma onehot_accepted_witness :
  DF.get_col "region_Southeast" (encode_items sample) = Some (VInt 1)
  /\ DF.get_col "region_Northwest" (encode_items sample) = Some (VInt 0).
Proof.
  destruct (onehot_accepted sample "Region"
              [("Northwest", "region_Northwest"); ("Southeast", "region_Southeast");
               ("Southwest", "region_Southwest")]
              "Southeast" "region_Southeast" sample_wf eq_refl eq_refl eq_refl)
    as [[Hon Hoff] _].
  split; [exact Hon |]. apply Hoff; [vm_compute; tauto | discriminate].
Defined.

(** X7: the four numeric attributes are copied into their columns as they
    are, whatever kind of value they hold; an absent attribute leaves the
    0 the frame was created with. *)
Theorem passthrough_cells (d : raw_input) (key col : string) :
  wf_dict d -> In (key, col) passthrough ->
  DF.get_col col (encode_items d)
  = Some (default (VInt 0) (dict_lookup d key)).
Proof.
  intros Hwf Hin. rewrite get_col_encode_items by assumption.
  unfold passthrough in Hin. cbn [In] in Hin.
  repeat (destruct Hin as [[= <- <-] | Hin];
          [unfold spec_cell; cbn [assoc]; cbn;
           now destruct (dict_lookup d _) |]).
  destruct Hin.
Qed.

Lemma passthrough_cells_witness :
  DF.get_col "income_lakhs" (encode_items sample) = Some (VInt 10)
  /\ DF.get_col "income_lakhs" (encode_items atlantis) = Some (VInt 0).
Proof.
  split.
  - refine (passthrough_cells sample "Income in Lakhs" "income_lakhs" sample_wf _).
    vm_compute. tauto.
  - refine (passthrough_cells atlantis "Income in Lakhs" "income_lakhs" atlantis_wf _).
    vm_compute. tauto.
Defined.

(** ** Items the encoder has no use for *)

Lemma assoc_skip {A : Type} (k k' : string) (v : A) (l1 l2 : list (string * A)) :
  k <> k' -> assoc k' (l1 ++ (k, v) :: l2)%list = assoc k' (l1 ++ l2)%list.
Proof.
  intros Hne. rewrite !assoc_app, assoc_cons.
  now destruct (String.eqb_spec k k').
Qed.

Lemma encode_items_skip (d1 d2 : raw_input) (k : string) (v : value) :
  spec_rule k v = None ->
  encode_items (d1 ++ (k, v) :: d2)%list = encode_items (d1 ++ d2)%list.
Proof.
  intros Hrule. unfold encode_items. rewrite !fold_left_app. cbn [fold_left].
  now rewrite encode_step_rule, Hrule.
Qed.

(** X8: an item under a key that the loop has no branch for, and that is
    not "Medical History", changes nothing: the scaled row and the
    prediction (or the error) are those of the input without it. *)
Theorem foreign_key_ignored (sy sr : scaler_bundle) (my mr : model)
    (d1 d2 : raw_input) (k : string) (v : value) :
  ~ In k recognized_keys -> k <> "Medical History" ->
  preprocess_input sy sr (d1 ++ (k, v) :: d2)%list
  = preprocess_input sy sr (d1 ++ d2)%list
  /\ predict sy sr my mr (d1 ++ (k, v) :: d2)%list
     = predict sy sr my mr (d1 ++ d2)%list.
Proof.
  intros Hk Hmh.
  assert (Hage : k <> "Age").
  { intros ->. apply Hk. vm_compute. tauto. }
  assert (Hrule : spec_rule k v = None) by (apply unrecognized_rule; now right).
  assert (Hpre : preprocess_input sy sr (d1 ++ (k, v) :: d2)%list
                 = preprocess_input sy sr (d1 ++ d2)%list).
  { unfold preprocess_input, feature_row, dict_item, dict_lookup.
    now rewrite (encode_items_skip d1 d2 k v Hrule), !assoc_skip by assumption. }
  split; [exact Hpre |].
  unfold predict, dict_item, dict_lookup. now rewrite Hpre, assoc_skip by assumption.
Qed.

Lemma foreign_key_ignored_witness :
  predict demo_scaler demo_scaler demo_model demo_model atlantis
  = predict demo_scaler demo_scaler demo_model demo_model
      [("Age", VInt 40); ("Region", VStr "Atlantis"); ("Medical History", VStr "none")].
Proof.
  refine (proj2 (foreign_key_ignored demo_scaler demo_scaler demo_model demo_model
                   [("Age", VInt 40); ("Region", VStr "Atlantis")]
                   [("Medical History", VStr "none")] "Planet" (VStr "Earth") _ _)).
  - intros Hin. apply existsb_eqb_In in Hin. vm_compute in Hin. discriminate.
  - discriminate.
Defined.

(** ** Ill-typed attributes *)

(** X9: a number under "Medical History" makes the call fail with an
    attribute error, before "Age" is looked at and whatever the artifacts. *)
Theorem numeric_history_error (sy sr : scaler_bundle) (my mr : model)
    (d : raw_input) (v : value) (q : Q) :
  dict_lookup d "Medical History" = Some v -> number v = Some q ->
  preprocess_input sy sr d = Raise AttributeError
  /\ predict sy sr my mr d = Raise AttributeError.
Proof.
  intros Hmh Hnum.
  assert (H : preprocess_input sy sr d = Raise AttributeError).
  { unfold preprocess_input, feature_row, dict_item. rewrite Hmh.
    destruct v; [discriminate | reflexivity | reflexivity]. }
  split; [exact H |]. unfold predict. now rewrite H.
Qed.

Lemma numeric_history_error_witness :
  predict demo_scaler demo_scaler demo_model demo_model [("Medical History", VInt 0)]
  = Raise AttributeError.
Proof.
  exact (proj2 (numeric_history_error demo_scaler demo_scaler demo_model demo_model
                  [("Medical History", VInt 0)] (VInt 0) (inject_Z 0)
                  eq_refl eq_refl)).
Defined.

(** X10: a string under "Age" is copied into the age column by the loop,
    but the comparison with 25 then fails with a type error: no scaler and
    no model is reached. *)
Theorem string_age_error (sy sr : scaler_bundle) (my mr : model)
    (d : raw_input) (s a : string) :
  wf_dict d ->
  dict_lookup d "Medical History" = Some (VStr s) ->
  dict_lookup d "Age" = Some (VStr a) ->
  DF.get_col "age" (encode_items d) = Some (VStr a)
  /\ preprocess_input sy sr d = Raise TypeError
  /\ predict sy sr my mr d = Raise TypeError.
Proof.
  intros Hwf Hmh Hage.
  assert (H : preprocess_input sy sr d = Raise TypeError).
  { unfold preprocess_input. rewrite (feature_row_Ok d s Hmh).
    unfold dict_item. now rewrite Hage. }
  repeat split; [| exact H | unfold predict; now rewrite H].
  rewrite get_col_encode_items by assumption.
  unfold spec_cell. cbn [assoc]. cbn. now rewrite Hage.
Qed.

Lemma string_age_error_witness :
  predict demo_scaler demo_scaler demo_model demo_model
    [("Age", VStr "22"); ("Medical History", VStr "none")]
  = Raise TypeError.
Proof.
  refine (proj2 (proj2 (string_age_error demo_scaler demo_scaler demo_model
                          demo_model
                          [("Age", VStr "22"); ("Medical History", VStr "none")]
                          "none" "22" _ eq_refl eq_refl))).
  unfold wf_dict. apply (bool_decide_unpack _). vm_compute. reflexivity.
Defined.

(** ** Outcomes of the scaling step *)

Lemma get_col_present (c : string) (df : dataframe) :
  In c (DF.columns df) -> exists v, DF.get_col c df = Some v.
Proof.
  intros Hin. destruct (DF.get_col c df) as [v|] eqn:Hget; [now exists v |].
  apply DFFacts.has_col_false in Hget. apply DFFacts.has_col_In in Hin. congruence.
Qed.

Lemma placed_present (c : string) (df : dataframe) :
  In c (DF.columns df) \/ c = "income_level" ->
  exists v, DF.get_col c (DF.set_col "income_level" (VInt 0) df) = Some v.
Proof.
  intros H. rewrite DFFacts.get_set_col.
  destruct (String.eqb_spec "income_level" c) as [<- | Hne]; [now eexists |].
  destruct H as [H | ->]; [now apply get_col_present | congruence].
Qed.

Lemma select_present (cols : list string) (df : dataframe) :
  (forall c, In c cols -> exists v, DF.get_col c df = Some v) ->
  exists sel, DF.select cols df = Ok sel /\ DF.columns sel = cols.
Proof.
  induction cols as [|c cols IH]; intros Hall.
  - now exists [].
  - destruct (Hall c) as [v Hv]; [now left |].
    destruct IH as (rest & Hrest & Hcols); [intros c' Hc'; apply Hall; now right |].
    exists ((c, v) :: rest). cbn [DF.select]. rewrite Hv, Hrest.
    split; [reflexivity |]. cbn [DF.columns map fst]. f_equal. exact Hcols.
Qed.


Lemma has_col_assign_all (c : string) (pairs : list (string * value)) (df : dataframe) :
  DF.has_col c df = true -> DF.has_col c (DF.assign_all pairs df) = true.
Proof.
  revert df. induction pairs as [|[c' x] pairs IH]; intros df Hhas; [assumption |].
  cbn [DF.assign_all fold_left fst snd]. fold (DF.assign_all pairs (DF.set_col c' x df)).
  apply IH. destruct (DF.has_col c (DF.set_col c' x df)) eqn:Hs; [reflexivity |].
  apply DFFacts.has_col_false in Hs. rewrite DFFacts.get_set_col in Hs.
  destruct (String.eqb c' c); [discriminate |].
  apply DFFacts.has_col_false in Hs. congruence.
Qed.

Lemma has_col_placed (df : dataframe) :
  DF.has_col "income_level" (DF.set_col "income_level" (VInt 0) df) = true.
Proof.
  destruct (DF.has_col _ _) eqn:Hs; [reflexivity |].
  apply DFFacts.has_col_false in Hs. now rewrite DFFacts.get_set_col_eq in Hs.
Qed.

(** X11: with a numeric age and every column of the selected bundle
    present in the frame (the placeholder aside), the scaling step raises
    no key or type error: it ends in the transform's own exception, in a
    value error when the transform returns a row of another length, or in
    the frame with the transformed cells written and the placeholder
    removed. *)
Theorem scaling_outcome (sy sr : scaler_bundle) (age : value) (q : Q)
    (df : dataframe) :
  number age = Some q ->
  let bundle := if Qle_bool q (inject_Z 25) then sy else sr in
  let cols := cols_to_scale bundle in
  let placed := DF.set_col "income_level" (VInt 0) df in
  (forall c, In c cols -> In c (DF.columns df) \/ c = "income_level") ->
  exists sel,
    DF.select cols placed = Ok sel
    /\ DF.columns sel = cols
    /\ handle_scaling sy sr age df
       = match transform bundle sel with
         | Raise e => Raise e
         | Ok row =>
             if Nat.eqb (length cols) (length row)
             then Ok (List.filter (fun cv => DF.not_named "income_level" (fst cv))
                        (DF.assign_all (combine cols row) placed))
             else Raise ValueError
         end.
Proof.
  intros Hnum bundle cols placed Hall.
  destruct (select_present cols placed) as (sel & Hsel & Hcols).
  { intros c Hc. apply placed_present. now apply Hall. }
  exists sel. repeat split; try assumption.
  unfold handle_scaling. rewrite (py_le_number age q 25 Hnum). cbn [bind].
  fold bundle. unfold scale_with. fold cols placed. rewrite Hsel. cbn [bind].
  destruct (transform bundle sel) as [row|e]; [| reflexivity]. cbn [bind].
  unfold DF.assign. destruct (Nat.eqb (length cols) (length row)); [| reflexivity].
  cbn [bind]. unfold DF.drop.
  now rewrite has_col_assign_all by apply has_col_placed.
Qed.

Lemma scaling_outcome_witness :
  exists sel,
    DF.select (cols_to_scale demo_scaler)
      (DF.set_col "income_level" (VInt 0) sample_row) = Ok sel
    /\ DF.columns sel = cols_to_scale demo_scaler.
Proof.
  destruct (scaling_outcome demo_scaler demo_scaler (VInt 22) (inject_Z 22)
              sample_row eq_refl) as (sel & Hsel & Hcols & _).
  - intros c Hc. cbn in Hc.
    repeat (destruct Hc as [<- | Hc]; [(left; vm_compute; tauto) || (right; reflexivity) |]).
    destruct Hc.
  - exists sel. split; assumption.
Defined.



Lemma filter_not_placeholder (c : string) (df : dataframe) :
  ~ In c (DF.columns df) ->
  List.filter (fun cv : string * value => DF.not_named c (fst cv)) df = df.
Proof.
  induction df as [|[c0 x] df IH]; intros Hnin; [reflexivity |].
  cbn [DF.columns map fst In] in Hnin. cbn [List.filter fst].
  unfold DF.not_named at 1. destruct (String.eqb_spec c0 c) as [-> | _]; [tauto |].
  cbn [negb]. f_equal. apply IH. tauto.
Qed.

(** X13: a bundle that scales no column returns the frame it was given,
    cell for cell: the placeholder is appended and dropped again. *)
Theorem scaling_nothing_to_scale (sy sr : scaler_bundle) (age : value) (q : Q)
    (df : dataframe) :
  number age = Some q ->
  let bundle := if Qle_bool q (inject_Z 25) then sy else sr in
  cols_to_scale bundle = [] -> transform bundle [] = Ok [] ->
  ~ In "income_level" (DF.columns df) ->
  handle_scaling sy sr age df = Ok df.
Proof.
  intros Hnum bundle Hcols Htr Hnin.
  unfold handle_scaling. rewrite (py_le_number age q 25 Hnum). cbn [bind].
  fold bundle. unfold scale_with. rewrite Hcols. cbn [DF.select bind].
  rewrite Htr. cbn. unfold DF.drop. rewrite has_col_placed. f_equal.
  unfold DF.set_col. destruct (DF.has_col "income_level" df) eqn:Hhas.
  - apply DFFacts.has_col_In in Hhas. contradiction.
  - rewrite List.filter_app. cbn. rewrite app_nil_r.
    now apply filter_not_placeholder.
Qed.

Lemma scaling_nothing_to_scale_witness :
  handle_scaling idle_scaler idle_scaler (VInt 30) sample_row = Ok sample_row.
Proof.
  refine (scaling_nothing_to_scale idle_scaler idle_scaler (VInt 30) (inject_Z 30)
            sample_row eq_refl eq_refl eq_refl _).
  intros Hin. apply existsb_eqb_In in Hin. vm_compute in Hin. discriminate.
Defined.

(** ** From the raw input to the model *)

Lemma placeholder_no_key : assoc "income_level" column_key = None.
Proof. reflexivity. Qed.

(** X14: a column written by the loop that neither bundle scales reaches
    the model with the cell the encoding rules give it; if neither bundle
    scales the risk column, it arrives holding the risk score. *)
Theorem unscaled_columns_reach_model (sy sr : scaler_bundle) (d : raw_input)
    (df' : dataframe) :
  wf_dict d -> preprocess_input sy sr d = Ok df' ->
  (forall c key, assoc c column_key = Some key ->
     ~ In c (cols_to_scale sy) -> ~ In c (cols_to_scale sr) ->
     DF.get_col c df' = spec_cell d c)
  /\ (~ In "normalized_risk_score" (cols_to_scale sy) ->
      ~ In "normalized_risk_score" (cols_to_scale sr) ->
      exists s, dict_lookup d "Medical History" = Some (VStr s)
                /\ DF.get_col "normalized_risk_score" df'
                   = Some (VFloat (calculate_normalized_risk s))).
Proof.
  intros Hwf Hpre.
  apply preprocess_input_Ok in Hpre as (df & age & Hrow & _ & Hscale).
  apply handle_scaling_Ok in Hscale as (young & _ & Hscale).
  apply scale_with_frame in Hscale
    as (sel & scaled & _ & _ & _ & _ & _ & _ & Hother & _).
  cbn zeta in Hother. split.
  - intros c key Hkey Hsy Hsr. rewrite Hother.
    + rewrite (feature_row_cell d df c key) by assumption.
      now apply get_col_encode_items.
    + now destruct young.
    + intros ->. rewrite placeholder_no_key in Hkey. discriminate.
  - intros Hsy Hsr. apply feature_row_inv in Hrow as (s & Hmh & ->).
    exists s. split; [assumption |]. rewrite Hother.
    + apply DFFacts.get_set_col_eq.
    + now destruct young.
    + discriminate.
Qed.

Lemma unscaled_columns_reach_model_witness :
  DF.get_col "gender_Male" sample_scaled = Some (VInt 1).
Proof.
  refine (proj1 (unscaled_columns_reach_model demo_scaler demo_scaler sample
                   sample_scaled sample_wf sample_preprocess)
            "gender_Male" "Gender" eq_refl _ _);
    intros Hin; apply existsb_eqb_In in Hin; vm_compute in Hin; discriminate.
Defined.

Lemma py_int_nonneg (p : Qc) : (0 <= p)%Qc -> py_int p = Qfloor p.
Proof.
  intros Hp. unfold py_int, Qfloor. destruct p as [[n dn] Hc].
  unfold Qcle in Hp. change (this 0%Qc) with (0 # 1) in Hp.
  unfold Qle in Hp. cbn in Hp |- *.
  apply Z.quot_div_nonneg; lia.
Qed.

Lemma py_int_nonpos (p : Qc) : (p <= 0)%Qc -> py_int p = Qceiling p.
Proof.
  intros Hp. unfold py_int, Qceiling, Qfloor. destruct p as [[n dn] Hc].
  unfold Qcle in Hp. change (this 0%Qc) with (0 # 1) in Hp.
  unfold Qle in Hp. cbn in Hp |- *.
  rewrite <- (Z.opp_involutive n) at 1. rewrite Z.quot_opp_l by lia.
  f_equal. apply Z.quot_div_nonneg; lia.
Qed.

(** X15: when preprocessing returns a row and the model of the age
    bracket returns a non-empty array, the prediction is the first entry
    of the array cut towards zero: the floor of a non-negative entry, the
    ceiling of a negative one.  Later entries play no part. *)
Theorem predict_truncates (sy sr : scaler_bundle) (my mr : model)
    (d : raw_input) (df : dataframe) (age : value) (q : Q) (p : Qc)
    (rest : list Qc) :
  preprocess_input sy sr d = Ok df ->
  dict_lookup d "Age" = Some age -> number age = Some q ->
  model_predict (if Qle_bool q (inject_Z 25) then my else mr) df = Ok (p :: rest) ->
  exists z, predict sy sr my mr d = Ok z
            /\ ((0 <= p)%Qc -> z = Qfloor p)
            /\ ((p <= 0)%Qc -> z = Qceiling p).
Proof.
  intros Hpre Hage Hnum Hm. exists (py_int p).
  repeat split; [| apply py_int_nonneg | apply py_int_nonpos].
  unfold predict, dict_item. rewrite Hpre, Hage. cbn [bind].
  rewrite (py_le_number age q 25 Hnum). cbn [bind].
  unfold predict_with. now rewrite Hm.
Qed.

Lemma predict_truncates_witness :
  exists z, predict demo_scaler demo_scaler demo_model demo_model sample = Ok z
            /\ z = Qfloor (Q2Qc (24691 # 2)).
Proof.
  destruct (predict_truncates demo_scaler demo_scaler demo_model demo_model
              sample sample_scaled (VInt 22) (inject_Z 22) (Q2Qc (24691 # 2)) []
              sample_preprocess eq_refl eq_refl eq_refl) as (z & Hz & Hfloor & _).
  exists z. split; [exact Hz |]. apply Hfloor. vm_compute. discriminate.
Defined.

Lemma encode_items_Permutation (d1 d2 : raw_input) :
  wf_dict d1 -> Permutation d1 d2 -> encode_items d1 = encode_items d2.
Proof.
  intros Hwf Hp.
  assert (Hwf2 : wf_dict d2).
  { unfold wf_dict in *.
    assert (Hpm : Permutation (map fst d1) (map fst d2)) by now apply Permutation_map.
    now rewrite <- Hpm. }
  apply DFFacts.dataframe_ext.
  - rewrite columns_encode_items. apply expected_columns_NoDup.
  - now rewrite !columns_encode_items.
  - intros c. rewrite !get_col_encode_items by assumption.
    now apply spec_cell_Permutation.
Qed.

(** X16: the prediction, or the error, does not depend on the order in
    which the raw input holds its items. *)
Theorem predict_order_independent (sy sr : scaler_bundle) (my mr : model)
    (d1 d2 : raw_input) :
  wf_dict d1 -> Permutation d1 d2 ->
  predict sy sr my mr d1 = predict sy sr my mr d2.
Proof.
  intros Hwf Hp.
  unfold predict, preprocess_input, feature_row, dict_item, dict_lookup.
  rewrite (encode_items_Permutation d1 d2 Hwf Hp).
  now rewrite (assoc_Permutation "Medical History" d1 d2 Hwf Hp),
              (assoc_Permutation "Age" d1 d2 Hwf Hp).
Qed.

Lemma predict_order_independent_witness :
  predict demo_scaler demo_scaler demo_model demo_model (rev sample) = Ok 12345.
Proof.
  rewrite <- (predict_order_independent demo_scaler demo_scaler demo_model
                demo_model sample (rev sample) sample_wf (Permutation_rev sample)).
  exact sample_predict.
Defined.

(** ** Loading the artifacts *)

(** X17: when the artifacts directory is in place, the first file in load
    order that fails to load decides the outcome, whatever the later
    files would do: its exception passes through the [except] clauses,
    which name the missing module or the missing file. *)
Theorem load_artifacts_first_failure {A : Type} (here : string)
    (makedirs : string -> option load_exn) (load : string -> loaded A)
    (i : nat) (name : string) (e : load_exn) :
  makedirs (path_join here "artifacts") = None ->
  artifact_names !! i = Some name ->
  (forall j earlier, (j < i)%nat -> artifact_names !! j = Some earlier ->
     exists a, load (path_join (path_join here "artifacts") earlier) = Loaded a) ->
  load (path_join (path_join here "artifacts") name) = LoadRaise e ->
  load_artifacts here makedirs load = LoadRaise (reraise e).
Proof.
  intros Hmk Hname Hearlier Hfail. unfold load_artifacts. rewrite Hmk.
  assert (H0 : (0 < i)%nat ->
    exists a, load (path_join (path_join here "artifacts") "model_young.joblib") = Loaded a)
    by (intros Hlt; now apply (Hearlier 0%nat)).
  assert (H1 : (1 < i)%nat ->
    exists a, load (path_join (path_join here "artifacts") "model_rest.joblib") = Loaded a)
    by (intros Hlt; now apply (Hearlier 1%nat)).
  assert (H2 : (2 < i)%nat ->
    exists a, load (path_join (path_join here "artifacts") "scaler_young.joblib") = Loaded a)
    by (intros Hlt; now apply (Hearlier 2%nat)).
  destruct i as [|[|[|[|i]]]]; cbn in Hname; try discriminate;
    injection Hname as <-.
  - now rewrite Hfail.
  - destruct H0 as [a0 ->]; [lia |]. now rewrite Hfail.
  - destruct H0 as [a0 ->]; [lia |]. destruct H1 as [a1 ->]; [lia |].
    now rewrite Hfail.
  - destruct H0 as [a0 ->]; [lia |]. destruct H1 as [a1 ->]; [lia |].
    destruct H2 as [a2 ->]; [lia |]. now rewrite Hfail.
Qed.

Lemma load_artifacts_first_failure_witness :
  load_artifacts "app" (fun _ => None) demo_load
  = LoadRaise (FileNotFoundError None
                 "Model/scaler file not found: app/artifacts/model_rest.joblib").
Proof.
  refine (load_artifacts_first_failure "app" (fun _ => None) demo_load 1
            "model_rest.joblib"
            (FileNotFoundError (Some "app/artifacts/model_rest.joblib")
               "No such file or directory") eq_refl eq_refl _ eq_refl).
  intros j earlier Hj Hlook. destruct j as [|j]; [| lia].
  injection Hlook as <-. now exists 1%nat.
Defined.

(** Loading succeeds exactly when the directory step raises nothing and
    each of the four files loads; the four objects come back in the order
    young model, rest model, young scaler, rest scaler. *)
Lemma load_artifacts_ok {A : Type} (here : string)
    (makedirs : string -> option load_exn) (load : string -> loaded A)
    (my mr sy sr : A) :
  load_artifacts here makedirs load = Loaded (my, mr, sy, sr)
  <-> makedirs (path_join here "artifacts") = None
      /\ load (path_join (path_join here "artifacts") "model_young.joblib") = Loaded my
      /\ load (path_join (path_join here "artifacts") "model_rest.joblib") = Loaded mr
      /\ load (path_join (path_join here "artifacts") "scaler_young.joblib") = Loaded sy
      /\ load (path_join (path_join here "artifacts") "scaler_rest.joblib") = Loaded sr.
Proof.
  unfold load_artifacts. split.
  - destruct (makedirs _); [discriminate |].
    destruct (load (path_join _ "model_young.joblib")); [| discriminate].
    destruct (load (path_join _ "model_rest.joblib")); [| discriminate].
    destruct (load (path_join _ "scaler_young.joblib")); [| discriminate].
    destruct (load (path_join _ "scaler_rest.joblib")); [| discriminate].
    intros [= -> -> -> ->]. repeat split.
  - intros (-> & -> & -> & -> & ->). reflexivity.
Qed.

(** ** One-hot groups *)

(** X18: in the frame after the loop at most one column of a categorical
    attribute's one-hot group holds 1. *)
Theorem onehot_exclusive (d : raw_input) (key c1 c2 : string) :
  wf_dict d ->
  In c1 (onehot_columns key) -> In c2 (onehot_columns key) ->
  DF.get_col c1 (encode_items d) = Some (VInt 1) ->
  DF.get_col c2 (encode_items d) = Some (VInt 1) ->
  c1 = c2.
Proof.
  intros Hwf Hc1 Hc2.
  apply onehot_columns_key in Hc1 as [Hk1 He1].
  apply onehot_columns_key in Hc2 as [Hk2 He2].
  rewrite !get_col_encode_items by assumption.
  unfold spec_cell, written. rewrite Hk1, Hk2, He1, He2.
  destruct (dict_lookup d key) as [v|]; [| discriminate].
  destruct (spec_rule key v) as [[c x]|]; [| discriminate].
  destruct (String.eqb_spec c c1) as [<- | _]; [| discriminate].
  destruct (String.eqb_spec c c2) as [<- | _]; [| discriminate].
  reflexivity.
Qed.

Lemma onehot_exclusive_witness :
  DF.get_col "region_Southeast" (encode_items sample) = Some (VInt 1)
  /\ "region_Southeast" = "region_Southeast".
Proof.
  assert (H : DF.get_col "region_Southeast" (encode_items sample) = Some (VInt 1))
    by (vm_compute; reflexivity).
  split; [exact H |].
  refine (onehot_exclusive sample "Region" "region_Southeast" "region_Southeast"
            sample_wf _ _ H H); vm_compute; tauto.
Defined.
